(** * Pre-execution hooks of mcphost: bash-validator.py and mcp-monitor.py

    A shallow embedding of the two example hooks and of the parts of the
    Python runtime they call ([re], [json], [os], [sys]), followed by the
    properties of the policy engine established on that embedding.

    Text is modelled by [string]: sequences of the code points U+0000 to
    U+00FF.  The character classes of [re] ([\s], [\w], case folding) are
    those of CPython for these code points. *)

From Stdlib Require Import Bool Arith List Lia ZArith.
From Stdlib Require Import Ascii String.
From Stdlib Require Import DecimalString DecimalZ.
Import ListNotations.
Local Open Scope list_scope.
Local Open Scope string_scope.
Local Open Scope nat_scope.

(** ** Characters *)

Module Chr.

Definition ord (c : ascii) : nat := nat_of_ascii c.

Definition between (lo hi : nat) (c : ascii) : bool :=
  (lo <=? ord c) && (ord c <=? hi).

Definition code_is (n : nat) (c : ascii) : bool := ord c =? n.

(** [str.isspace] on one code point; the class behind [\s]. *)
Definition isspace (c : ascii) : bool :=
  between 9 13 c || between 28 32 c || code_is 133 c || code_is 160 c.

(** The class behind [\w]: alphanumeric code points and the underscore. *)
Definition isword (c : ascii) : bool :=
  between 48 57 c || between 65 90 c || code_is 95 c || between 97 122 c
  || code_is 170 c || between 178 179 c || code_is 181 c || between 185 186 c
  || between 188 190 c || between 192 214 c || between 216 246 c
  || between 248 255 c.

(** Simple lower-case mapping, as used by [re.IGNORECASE]. *)
Definition lower (c : ascii) : ascii :=
  if between 65 90 c || (between 192 222 c && negb (code_is 215 c))
  then ascii_of_nat (ord c + 32)
  else c.

Definition isdigit (c : ascii) : bool := between 48 57 c.

(** ASCII letters and digits, the characters that may not follow a
    backslash as an escaped literal. *)
Definition isalnum_ascii (c : ascii) : bool :=
  between 48 57 c || between 65 90 c || between 97 122 c.

End Chr.

(** ** Regular expressions: the fragment of [re] used by the hooks

    Every pattern of the two scripts is a sequence of items, each a
    single-character matcher, possibly under [*] or [+], or the assertion
    [\b].  [compile] parses the pattern text; anything outside this
    fragment is refused. *)

Module Re.

Inductive set_item : Type :=
| SChar (c : ascii)
| SRange (lo hi : ascii).

Inductive atom : Type :=
| Lit (c : ascii)               (* a literal character *)
| Any                           (* [.] *)
| Space                         (* [\s] *)
| OneOf (items : list set_item).   (* [[...]] *)

Inductive node : Type :=
| One (a : atom)
| Star (a : atom)               (* greedy [*] *)
| Plus (a : atom)               (* greedy [+] *)
| Boundary.                     (* [\b] *)

Definition regex : Type := list node.

(** *** Parsing *)

Definition special (c : ascii) : bool :=
  existsb (Ascii.eqb c)
    (list_ascii_of_string ".\[{()*+?^$|").

Definition repeat_char (c : ascii) : bool :=
  existsb (Ascii.eqb c) (list_ascii_of_string "*+?{").

(** The body of a character set, after the opening bracket.  Plain
    members and ranges only. *)
Fixpoint parse_set (s : string) (acc : list set_item)
  : option (list set_item * string) :=
  match s with
  | EmptyString => None
  | String c rest =>
      if Ascii.eqb c "]" then
        match acc with
        | [] => None
        | _ => Some (rev acc, rest)
        end
      else if Ascii.eqb c "\" || Ascii.eqb c "[" || Ascii.eqb c "^"
              || Ascii.eqb c "-" then None
      else
        match rest with
        | String "-" (String hi rest') =>
            if Ascii.eqb hi "]" || Ascii.eqb hi "\" || Ascii.eqb hi "["
            then None
            else if Chr.ord c <=? Chr.ord hi
                 then parse_set rest' (SRange c hi :: acc)
                 else None
        | _ => parse_set rest (SChar c :: acc)
        end
  end.

(** One atom or assertion at the head of the pattern. *)
Definition parse_item (s : string) : option (node * string) :=
  match s with
  | EmptyString => None
  | String "\" (String "b" rest) => Some (Boundary, rest)
  | String "\" (String "s" rest) => Some (One Space, rest)
  | String "\" (String c rest) =>
      if Chr.isalnum_ascii c then None else Some (One (Lit c), rest)
  | String "\" EmptyString => None
  | String "." rest => Some (One Any, rest)
  | String "[" rest =>
      match parse_set rest [] with
      | Some (items, rest') => Some (One (OneOf items), rest')
      | None => None
      end
  | String c rest =>
      if special c then None else Some (One (Lit c), rest)
  end.

(** A quantifier after an item; lazy, possessive and counted repeats are
    outside the fragment. *)
Definition parse_repeat (n : node) (s : string) : option (node * string) :=
  match s with
  | String q rest =>
      if repeat_char q then
        match n, rest with
        | One a, String q' _ =>
            if repeat_char q' then None
            else if Ascii.eqb q "*" then Some (Star a, rest)
            else if Ascii.eqb q "+" then Some (Plus a, rest)
            else None
        | One a, EmptyString =>
            if Ascii.eqb q "*" then Some (Star a, rest)
            else if Ascii.eqb q "+" then Some (Plus a, rest)
            else None
        | _, _ => None
        end
      else Some (n, s)
  | EmptyString => Some (n, s)
  end.

Fixpoint parse (fuel : nat) (s : string) : option regex :=
  match s with
  | EmptyString => Some []
  | _ =>
      match fuel with
      | O => None
      | S fuel' =>
          match parse_item s with
          | None => None
          | Some (n, rest) =>
              match parse_repeat n rest with
              | None => None
              | Some (n', rest') =>
                  match parse fuel' rest' with
                  | None => None
                  | Some r => Some (n' :: r)
                  end
              end
          end
      end
  end.

(** [re.compile] on the fragment; [None] stands for a pattern that is
    refused. *)
Definition compile (pattern : string) : option regex :=
  parse (String.length pattern) pattern.

(** *** Matching *)

Definition in_item (ignorecase : bool) (c : ascii) (i : set_item) : bool :=
  match i with
  | SChar x =>
      if ignorecase then Ascii.eqb (Chr.lower c) (Chr.lower x)
      else Ascii.eqb c x
  | SRange lo hi =>
      if ignorecase then
        existsb (fun n =>
                   Ascii.eqb (Chr.lower c) (Chr.lower (ascii_of_nat n)))
                (seq (Chr.ord lo) (S (Chr.ord hi) - Chr.ord lo))
      else Chr.between (Chr.ord lo) (Chr.ord hi) c
  end.

Definition atom_match (ignorecase : bool) (a : atom) (c : ascii) : bool :=
  match a with
  | Lit x =>
      if ignorecase then Ascii.eqb (Chr.lower c) (Chr.lower x)
      else Ascii.eqb c x
  | Any => negb (Chr.code_is 10 c)
  | Space => Chr.isspace c
  | OneOf items => existsb (in_item ignorecase c) items
  end.

Definition word_at (c : option ascii) : bool :=
  match c with
  | Some x => Chr.isword x
  | None => false
  end.

Definition peek (s : string) : option ascii :=
  match s with
  | String c _ => Some c
  | EmptyString => None
  end.

(** A greedy repetition of a one-character test [p], then the
    continuation [k], backtracking over the number of repetitions.
    [prev] is the character before the current position. *)
Fixpoint repeat_then (p : ascii -> bool)
         (k : option ascii -> string -> bool)
         (prev : option ascii) (s : string) : bool :=
  match s with
  | String c s' => (p c && repeat_then p k (Some c) s') || k prev s
  | EmptyString => k prev s
  end.

(** Does [r] match a prefix of [s], [prev] being the character just
    before [s] in the subject? *)
Fixpoint match_here (ignorecase : bool) (r : regex)
         (prev : option ascii) (s : string) : bool :=
  match r with
  | [] => true
  | Boundary :: r' =>
      xorb (word_at prev) (word_at (peek s))
      && match_here ignorecase r' prev s
  | One a :: r' =>
      match s with
      | String c s' =>
          atom_match ignorecase a c && match_here ignorecase r' (Some c) s'
      | EmptyString => false
      end
  | Star a :: r' =>
      repeat_then (atom_match ignorecase a) (match_here ignorecase r') prev s
  | Plus a :: r' =>
      match s with
      | String c s' =>
          atom_match ignorecase a c
          && repeat_then (atom_match ignorecase a)
                         (match_here ignorecase r') (Some c) s'
      | EmptyString => false
      end
  end.

(** Scanning for a match at every start position, left to right. *)
Fixpoint search_from (ignorecase : bool) (r : regex)
         (prev : option ascii) (s : string) : bool :=
  match_here ignorecase r prev s
  || match s with
     | String c s' => search_from ignorecase r (Some c) s'
     | EmptyString => false
     end.

(** Truth value of [re.match(pattern, s)] and [re.search(pattern, s)]
    for a compiled pattern. *)
Definition matches (ignorecase : bool) (r : regex) (s : string) : bool :=
  match_here ignorecase r None s.

Definition searches (ignorecase : bool) (r : regex) (s : string) : bool :=
  search_from ignorecase r None s.

End Re.

(** ** JSON values and the [json] codec

    Values as [json.load] builds them: [None], booleans, integers,
    strings, lists and dictionaries with string keys, in insertion order.
    Floating-point numbers are outside the embedding. *)

Module Json.

#[local] Unset Elimination Schemes.

Inductive json : Type :=
| JNull
| JBool (b : bool)
| JInt (n : Z)
| JStr (s : string)
| JList (l : list json)
| JDict (d : list (string * json)).

#[local] Set Elimination Schemes.

(** The name of the Python type of a value, as exception messages
    print it. *)
Definition type_name (v : json) : string :=
  match v with
  | JNull => "NoneType"
  | JBool _ => "bool"
  | JInt _ => "int"
  | JStr _ => "str"
  | JList _ => "list"
  | JDict _ => "dict"
  end.

(** *** Dictionaries *)

(** [d.get(key)], absent keys giving [None]. *)
Fixpoint dict_get (d : list (string * json)) (key : string) : option json :=
  match d with
  | [] => None
  | (k, v) :: d' => if String.eqb k key then Some v else dict_get d' key
  end.

(** [d[key] = v]: an existing key keeps its place and takes the new
    value, a new key goes last. *)
Fixpoint dict_set (d : list (string * json)) (key : string) (v : json)
  : list (string * json) :=
  match d with
  | [] => [(key, v)]
  | (k, x) :: d' =>
      if String.eqb k key then (k, v) :: d'
      else (k, x) :: dict_set d' key v
  end.

(** [d.get(key, default)] *)
Definition dict_get_or (d : list (string * json)) (key : string)
           (default : json) : json :=
  match dict_get d key with
  | Some x => x
  | None => default
  end.

(** [dict(pairs)] *)
Definition dict_of_pairs (pairs : list (string * json))
  : list (string * json) :=
  fold_left (fun d kv => dict_set d (fst kv) (snd kv)) pairs [].

(** *** Encoding: [json.dumps] with its default options *)

Definition dquote : ascii := "034".
Definition backslash : ascii := "\".

Definition quoted (s : string) : string :=
  String dquote (s ++ String dquote EmptyString).

Definition hexdigit (n : nat) : ascii :=
  nth n (list_ascii_of_string "0123456789abcdef") "0"%char.

Definition escape_char (c : ascii) : string :=
  if Ascii.eqb c dquote then String backslash (String dquote EmptyString)
  else if Ascii.eqb c backslash then String backslash (String backslash EmptyString)
  else if Chr.code_is 10 c then "\n"
  else if Chr.code_is 13 c then "\r"
  else if Chr.code_is 9 c then "\t"
  else if Chr.code_is 8 c then "\b"
  else if Chr.code_is 12 c then "\f"
  else if Chr.between 32 126 c then String c EmptyString
  else "\u00" ++ String (hexdigit (Chr.ord c / 16))
                   (String (hexdigit (Chr.ord c mod 16)) EmptyString).

Fixpoint escape (s : string) : string :=
  match s with
  | EmptyString => EmptyString
  | String c s' => escape_char c ++ escape s'
  end.

Definition encode_string (s : string) : string := quoted (escape s).

Definition encode_int (n : Z) : string :=
  NilEmpty.string_of_int (Z.to_int n).

Fixpoint dumps (v : json) : string :=
  match v with
  | JNull => "null"
  | JBool true => "true"
  | JBool false => "false"
  | JInt n => encode_int n
  | JStr s => encode_string s
  | JList l =>
      "[" ++ (fix items (l : list json) : string :=
                match l with
                | [] => EmptyString
                | [x] => dumps x
                | x :: l' => dumps x ++ ", " ++ items l'
                end) l ++ "]"
  | JDict d =>
      "{" ++ (fix members (d : list (string * json)) : string :=
                match d with
                | [] => EmptyString
                | [(k, x)] => encode_string k ++ ": " ++ dumps x
                | (k, x) :: d' =>
                    encode_string k ++ ": " ++ dumps x ++ ", " ++ members d'
                end) d ++ "}"
  end.

(** *** Decoding: [json.loads] *)

Definition is_ws (c : ascii) : bool :=
  Chr.code_is 32 c || Chr.code_is 9 c || Chr.code_is 10 c || Chr.code_is 13 c.

Fixpoint skip_ws (s : string) : string :=
  match s with
  | String c s' => if is_ws c then skip_ws s' else s
  | EmptyString => s
  end.

Fixpoint strip_prefix (p s : string) : option string :=
  match p, s with
  | EmptyString, _ => Some s
  | String a p', String b s' =>
      if Ascii.eqb a b then strip_prefix p' s' else None
  | String _ _, EmptyString => None
  end.

Definition hexval (c : ascii) : option nat :=
  if Chr.between 48 57 c then Some (Chr.ord c - 48)
  else if Chr.between 97 102 c then Some (Chr.ord c - 87)
  else if Chr.between 65 70 c then Some (Chr.ord c - 55)
  else None.

Definition hex4 (a b c d : ascii) : option nat :=
  match hexval a, hexval b, hexval c, hexval d with
  | Some x, Some y, Some z, Some w => Some (((x * 16 + y) * 16 + z) * 16 + w)
  | _, _, _, _ => None
  end.

Definition unescape (e : ascii) : option ascii :=
  if Ascii.eqb e dquote then Some dquote
  else if Ascii.eqb e backslash then Some backslash
  else if Ascii.eqb e "/" then Some "/"%char
  else if Ascii.eqb e "b" then Some (ascii_of_nat 8)
  else if Ascii.eqb e "f" then Some (ascii_of_nat 12)
  else if Ascii.eqb e "n" then Some (ascii_of_nat 10)
  else if Ascii.eqb e "r" then Some (ascii_of_nat 13)
  else if Ascii.eqb e "t" then Some (ascii_of_nat 9)
  else None.

Definition prepend (c : ascii) (r : option (string * string))
  : option (string * string) :=
  match r with
  | Some (s, rest) => Some (String c s, rest)
  | None => None
  end.

(** The body of a string literal, after the opening quote, up to and
    including the closing quote.  Code points above U+00FF are refused. *)
Fixpoint scan_string (s : string) : option (string * string) :=
  match s with
  | EmptyString => None
  | String c rest =>
      if Ascii.eqb c dquote then Some (EmptyString, rest)
      else if Ascii.eqb c backslash then
        match rest with
        | String e rest' =>
            if Ascii.eqb e "u" then
              match rest' with
              | String h1 (String h2 (String h3 (String h4 r))) =>
                  match hex4 h1 h2 h3 h4 with
                  | Some n =>
                      if n <? 256
                      then prepend (ascii_of_nat n) (scan_string r)
                      else None
                  | None => None
                  end
              | _ => None
              end
            else
              match unescape e with
              | Some x => prepend x (scan_string rest')
              | None => None
              end
        | EmptyString => None
        end
      else if Chr.ord c <? 32 then None
      else prepend c (scan_string rest)
  end.

Fixpoint take_digits (s : string) : string * string :=
  match s with
  | String c s' =>
      if Chr.isdigit c
      then let (ds, rest) := take_digits s' in (String c ds, rest)
      else (EmptyString, s)
  | EmptyString => (EmptyString, s)
  end.

Definition starts_with_digit (s : string) : bool :=
  match s with
  | String c _ => Chr.isdigit c
  | EmptyString => false
  end.

(** The rest of the text after the character [c], if it starts with it. *)
Definition eat (c : ascii) (s : string) : option string :=
  match s with
  | String x r => if Ascii.eqb x c then Some r else None
  | EmptyString => None
  end.

(** Does a fraction or an exponent follow the integer part? *)
Definition float_tail (s : string) : bool :=
  match s with
  | String c r =>
      if Ascii.eqb c "." then starts_with_digit r
      else if Ascii.eqb c "e" || Ascii.eqb c "E" then
        match r with
        | String sg r' =>
            if Ascii.eqb sg "+" || Ascii.eqb sg "-"
            then starts_with_digit r'
            else Chr.isdigit sg
        | EmptyString => false
        end
      else false
  | EmptyString => false
  end.

Definition digits_value (ds : string) : option Z :=
  match NilEmpty.uint_of_string ds with
  | Some u => Some (Z.of_uint u)
  | None => None
  end.

(** An integer without sign: a lone zero, or digits that do not start
    with zero; a number that goes on as a float is refused. *)
Definition scan_natural (s : string) : option (Z * string) :=
  let (ds, rest) :=
    match eat "0" s with
    | Some r => ("0", r)
    | None => take_digits s
    end in
  match ds with
  | EmptyString => None
  | _ =>
      if float_tail rest then None
      else
        match digits_value ds with
        | Some n => Some (n, rest)
        | None => None
        end
  end.

Definition scan_int (s : string) : option (Z * string) :=
  match eat "-" s with
  | Some r =>
      match scan_natural r with
      | Some (n, rest) => Some (Z.opp n, rest)
      | None => None
      end
  | None => scan_natural s
  end.

Fixpoint parse_value (fuel : nat) (s : string) : option (json * string) :=
  match fuel with
  | O => None
  | S fuel' =>
      match s with
      | EmptyString => None
      | String c r =>
          if Ascii.eqb c dquote then
            match scan_string r with
            | Some (x, r') => Some (JStr x, r')
            | None => None
            end
          else if Ascii.eqb c "{" then
            match eat "}" (skip_ws r) with
            | Some r' => Some (JDict [], r')
            | None =>
                match parse_members fuel' (skip_ws r) with
                | Some (pairs, r') => Some (JDict (dict_of_pairs pairs), r')
                | None => None
                end
            end
          else if Ascii.eqb c "[" then
            match eat "]" (skip_ws r) with
            | Some r' => Some (JList [], r')
            | None =>
                match parse_items fuel' (skip_ws r) with
                | Some (l, r') => Some (JList l, r')
                | None => None
                end
            end
          else
            match strip_prefix "null" s with
            | Some r' => Some (JNull, r')
            | None =>
                match strip_prefix "true" s with
                | Some r' => Some (JBool true, r')
                | None =>
                    match strip_prefix "false" s with
                    | Some r' => Some (JBool false, r')
                    | None =>
                        match scan_int s with
                        | Some (n, r') => Some (JInt n, r')
                        | None => None
                        end
                    end
                end
            end
      end
  end

with parse_items (fuel : nat) (s : string) : option (list json * string) :=
  match fuel with
  | O => None
  | S fuel' =>
      match parse_value fuel' s with
      | Some (v, r) =>
          match eat "]" (skip_ws r) with
          | Some r' => Some ([v], r')
          | None =>
              match eat "," (skip_ws r) with
              | Some r' =>
                  match parse_items fuel' (skip_ws r') with
                  | Some (l, r'') => Some (v :: l, r'')
                  | None => None
                  end
              | None => None
              end
          end
      | None => None
      end
  end

with parse_members (fuel : nat) (s : string)
  : option (list (string * json) * string) :=
  match fuel with
  | O => None
  | S fuel' =>
      match eat dquote s with
      | Some r =>
          match scan_string r with
          | Some (k, r1) =>
              match eat ":" (skip_ws r1) with
              | Some r2 =>
                  match parse_value fuel' (skip_ws r2) with
                  | Some (v, r3) =>
                      match eat "}" (skip_ws r3) with
                      | Some r' => Some ([(k, v)], r')
                      | None =>
                          match eat "," (skip_ws r3) with
                          | Some r' =>
                              match parse_members fuel' (skip_ws r') with
                              | Some (l, r'') => Some ((k, v) :: l, r'')
                              | None => None
                              end
                          | None => None
                          end
                      end
                  | None => None
                  end
              | None => None
              end
          | None => None
          end
      | None => None
      end
  end.

(** [json.loads]: one value, white space around it, nothing else. *)
Definition loads (s : string) : option json :=
  match parse_value (2 * String.length s + 2) (skip_ws s) with
  | Some (v, r) =>
      match skip_ws r with
      | EmptyString => Some v
      | _ => None
      end
  | None => None
  end.

End Json.

(** ** The process: output streams, exit status, exceptions, files *)

Module Py.

Import Json.

(** Exceptions the hooks can meet.  All are subclasses of [Exception];
    [SystemExit] is not, and is kept apart (see [result]). *)
Inductive exn : Type :=
| JSONDecodeError (doc : string)
| AttributeError (v : json) (attr : string)
| TypeError (callee : string) (v : json)
| ReError (pattern : string)
| OSError (kind : string) (path : string).

(** What the interpreter supplies and the scripts only call: the JSON
    decoder and the text of an exception, [str(e)]. *)
Class Runtime : Type :=
  { json_loads : string -> option json;
    exn_str : exn -> string }.

(** *** Files *)

Inductive node : Type :=
| Dir
| File (content : string).

(** The file system, by path as spelled. *)
Definition filesystem : Type := string -> option node.

Definition fs_set (fs : filesystem) (path : string) (n : node) : filesystem :=
  fun p => if String.eqb p path then Some n else fs p.

(** The proper prefixes of a path that end just before a separator,
    shortest first. *)
Fixpoint parents_from (pre s : string) : list string :=
  match s with
  | EmptyString => []
  | String c r =>
      let here :=
        if Ascii.eqb c "/" then
          match pre with
          | EmptyString => []
          | _ => [pre]
          end
        else [] in
      (here ++ parents_from (pre ++ String c EmptyString) r)%list
  end.

Definition parents (path : string) : list string :=
  parents_from EmptyString path.

(** A file-system call leaves a file system behind and may fail. *)
Definition fs_result : Type := option exn * filesystem.

(** The directories on the way, outermost first, the last being the one
    asked for.  What exists is passed over; what is missing is made,
    which fails under a regular file; the last one may not be a regular
    file. *)
Fixpoint mkdir_each (dirs : list string) (under_file : bool)
         (fs : filesystem) : fs_result :=
  match dirs with
  | [] => (None, fs)
  | d :: ds =>
      match fs d with
      | Some Dir => mkdir_each ds false fs
      | Some (File _) =>
          match ds with
          | [] => (Some (OSError "FileExistsError" d), fs)
          | _ => mkdir_each ds true fs
          end
      | None =>
          if under_file then (Some (OSError "NotADirectoryError" d), fs)
          else mkdir_each ds false (fs_set fs d Dir)
      end
  end.

(** [os.makedirs(path, exist_ok=True)] *)
Definition makedirs (path : string) (fs : filesystem) : fs_result :=
  mkdir_each (parents path ++ [path])%list false fs.

(** [with open(path, "a") as f: f.write(data)] *)
Definition append_file (path data : string) (fs : filesystem) : fs_result :=
  match fs path with
  | Some Dir => (Some (OSError "IsADirectoryError" path), fs)
  | Some (File old) => (None, fs_set fs path (File (old ++ data)))
  | None =>
      match last (map Some (parents path)) None with
      | None => (None, fs_set fs path (File data))
      | Some d =>
          match fs d with
          | Some Dir => (None, fs_set fs path (File data))
          | Some (File _) => (Some (OSError "NotADirectoryError" path), fs)
          | None => (Some (OSError "FileNotFoundError" path), fs)
          end
      end
  end.

(** *** Paths and the environment *)

Definition starts_with_slash (s : string) : bool :=
  match s with
  | String "/" _ => true
  | _ => false
  end.

Fixpoint ends_with_slash (s : string) : bool :=
  match s with
  | EmptyString => false
  | String c EmptyString => Ascii.eqb c "/"
  | String _ r => ends_with_slash r
  end.

(** [os.path.join(a, b)] *)
Definition path_join (a b : string) : string :=
  if starts_with_slash b then b
  else
    match a with
    | EmptyString => b
    | _ => if ends_with_slash a then a ++ b else a ++ "/" ++ b
    end.

(** [s.rstrip('/')] *)
Fixpoint rstrip_slash (s : string) : string :=
  match s with
  | EmptyString => EmptyString
  | String c r =>
      match rstrip_slash r with
      | EmptyString => if Ascii.eqb c "/" then EmptyString else String c EmptyString
      | r' => String c r'
      end
  end.

Fixpoint environ_get (environ : list (string * string)) (name : string)
  : option string :=
  match environ with
  | [] => None
  | (k, v) :: e => if String.eqb k name then Some v else environ_get e name
  end.

(** What a run reads from outside: standard input, the environment, the
    home directory in the password database, and the clock, already in
    ISO format. *)
Record world : Type :=
  { stdin : string;
    environ : list (string * string);
    pw_dir : option string;
    now_isoformat : string }.

(** [os.path.expanduser('~/.config')] *)
Definition expanduser_config (w : world) : string :=
  let home :=
    match environ_get (environ w) "HOME" with
    | Some h => Some h
    | None => pw_dir w
    end in
  match home with
  | Some h => rstrip_slash h ++ "/.config"
  | None => "~/.config"
  end.

(** *** The monad *)

Record io : Type :=
  { stdout : string;
    stderr : string;
    files : filesystem }.

Inductive result (A : Type) : Type :=
| Ret (a : A)
| Exit (code : nat)        (* [sys.exit(code)] under way *)
| Raise (e : exn).         (* an [Exception] under way *)

Arguments Ret {A} a.
Arguments Exit {A} code.
Arguments Raise {A} e.

Definition M (A : Type) : Type := io -> result A * io.

Definition ret {A} (a : A) : M A := fun s => (Ret a, s).

Definition bind {A B} (m : M A) (k : A -> M B) : M B :=
  fun s =>
    match m s with
    | (Ret a, s') => k a s'
    | (Exit c, s') => (Exit c, s')
    | (Raise e, s') => (Raise e, s')
    end.

Definition raise {A} (e : exn) : M A := fun s => (Raise e, s).

Definition sys_exit {A} (code : nat) : M A := fun s => (Exit code, s).

Definition newline : string := String (ascii_of_nat 10) EmptyString.

(** [print(text)] and [print(text, file=sys.stderr)] *)
Definition print (text : string) : M unit :=
  fun s =>
    (Ret tt, {| stdout := stdout s ++ text ++ newline;
                stderr := stderr s;
                files := files s |}).

Definition print_err (text : string) : M unit :=
  fun s =>
    (Ret tt, {| stdout := stdout s;
                stderr := stderr s ++ text ++ newline;
                files := files s |}).

(** A file-system call: the file system it leaves replaces the old one,
    its error, if any, is raised. *)
Definition on_files (f : filesystem -> fs_result) : M unit :=
  fun s =>
    let (err, fs') := f (files s) in
    let s' := {| stdout := stdout s; stderr := stderr s; files := fs' |} in
    match err with
    | Some e => (Raise e, s')
    | None => (Ret tt, s')
    end.

(** [try: body except Exception as e: handler(e)].  An exit under way
    passes through. *)
Definition try_except {A} (body : M A) (handler : exn -> M A) : M A :=
  fun s =>
    match body s with
    | (Raise e, s') => handler e s'
    | other => other
    end.

Declare Scope py_scope.
Delimit Scope py_scope with py.
Notation "x <- m ;; k" := (bind m (fun x => k))
  (at level 61, m at next level, right associativity) : py_scope.
Notation "m ;; k" := (bind m (fun _ => k))
  (at level 61, right associativity) : py_scope.

(** The exit status of the process once the script body has run. *)
Definition exit_status {A} (r : result A) : nat :=
  match r with
  | Ret _ => 0
  | Exit c => c
  | Raise _ => 1
  end.

Definition start (fs : filesystem) : io :=
  {| stdout := EmptyString; stderr := EmptyString; files := fs |}.

(** *** Library calls on values *)

Section Calls.
Context {rt : Runtime}.
Local Open Scope py_scope.

(** [v.get(key, default)] *)
Definition get (v : json) (key : string) (default : json) : M json :=
  match v with
  | JDict d => ret (dict_get_or d key default)
  | _ => raise (AttributeError v "get")
  end.

(** [json.loads(v)] *)
Definition loads_value (v : json) : M json :=
  match v with
  | JStr s =>
      match json_loads s with
      | Some x => ret x
      | None => raise (JSONDecodeError s)
      end
  | _ => raise (TypeError "json.loads" v)
  end.

(** [json.load(sys.stdin)] *)
Definition load_stdin (w : world) : M json :=
  loads_value (JStr (stdin w)).

(** [re.search(pattern, v, flags)] and [re.match(pattern, v)], as
    truth values. *)
Definition re_search (pattern : string) (v : json) (ignorecase : bool)
  : M bool :=
  match Re.compile pattern with
  | None => raise (ReError pattern)
  | Some r =>
      match v with
      | JStr s => ret (Re.searches ignorecase r s)
      | _ => raise (TypeError "re" v)
      end
  end.

Definition re_match (pattern : string) (v : json) : M bool :=
  match Re.compile pattern with
  | None => raise (ReError pattern)
  | Some r =>
      match v with
      | JStr s => ret (Re.matches false r s)
      | _ => raise (TypeError "re" v)
      end
  end.

(** [v == s] for a string [s] *)
Definition is_str (s : string) (v : json) : bool :=
  match v with
  | JStr x => String.eqb x s
  | _ => false
  end.

(** A value inside an f-string.  Only strings reach a format site of
    the hooks: [re.match] has raised on anything else before. *)
Definition format (v : json) : string :=
  match v with
  | JStr s => s
  | _ => dumps v
  end.

(** The handler shared by both scripts:
    [print(f"Hook error: {e}", file=sys.stderr); sys.exit(1)] *)
Definition hook_error (e : exn) : M unit :=
  print_err ("Hook error: " ++ exn_str e) ;; sys_exit 1.

End Calls.

End Py.

(** ** bash-validator.py *)

Module BashValidator.

Import Json Py.
Local Open Scope py_scope.

Definition DANGEROUS_PATTERNS : list (string * string) :=
  [ ("\brm\s+-rf\s+/", "Dangerous command: rm -rf /");
    ("\bdd\s+.*\bof=/dev/[sh]d[a-z]", "Direct disk write detected");
    (">\s*/dev/null\s+2>&1",
     "Consider using proper error handling instead of discarding stderr") ].

Definition SUGGEST_ALTERNATIVES : list (string * string) :=
  [ ("\bgrep\b", "Use 'rg' (ripgrep) for better performance");
    ("\bfind\s+.*-name", "Use 'fd' for faster file finding") ].

(** [", ".join]-style joining with a separator. *)
Fixpoint join (sep : string) (l : list string) : string :=
  match l with
  | [] => EmptyString
  | [x] => x
  | x :: l' => x ++ sep ++ join sep l'
  end.

Section Script.
Context {rt : Runtime}.

(** The loop over the dangerous patterns: the first one found in the
    command prints its message on the error stream and exits 2. *)
Fixpoint check_dangerous (rules : list (string * string)) (command : json)
  : M unit :=
  match rules with
  | [] => ret tt
  | (pattern, message) :: rules' =>
      found <- re_search pattern command true ;;
      if found then print_err message ;; sys_exit 2
      else check_dangerous rules' command
  end.

(** The loop over the alternatives: the suggestion of every pattern
    found is appended to the list, in table order. *)
Fixpoint collect_suggestions (rules : list (string * string))
         (command : json) (suggestions : list string)
  : M (list string) :=
  match rules with
  | [] => ret suggestions
  | (pattern, suggestion) :: rules' =>
      found <- re_search pattern command false ;;
      collect_suggestions rules' command
        (if found then (suggestions ++ [suggestion])%list
         else suggestions)
  end.

Definition approval (suggestions : list string) : json :=
  JDict [ ("decision", JStr "approve");
          ("reason",
           JStr ("Command approved. Suggestions: "
                   ++ join "; " suggestions)) ].

(** The body of [main], over the two rule tables. *)
Definition validate (dangerous suggest : list (string * string))
           (w : world) : M unit :=
  try_except
    (input_data <- load_stdin w ;;
     tool_name <- get input_data "tool_name" JNull ;;
     (if negb (is_str "bash" tool_name) then sys_exit 0 else ret tt) ;;
     tool_input <- get input_data "tool_input" (JStr "{}") ;;
     payload <- loads_value tool_input ;;
     command <- get payload "command" (JStr EmptyString) ;;
     check_dangerous dangerous command ;;
     suggestions <- collect_suggestions suggest command [] ;;
     match suggestions with
     | [] => ret tt
     | _ => print (dumps (approval suggestions))
     end)
    hook_error.

Definition main (w : world) : M unit :=
  validate DANGEROUS_PATTERNS SUGGEST_ALTERNATIVES w.

End Script.

End BashValidator.

(** ** mcp-monitor.py *)

Module McpMonitor.

Import Json Py.
Local Open Scope py_scope.

Definition BLOCKED_MCP_TOOLS : list string :=
  [ "mcp__github__delete_.*";
    "mcp__aws__.*_production" ].

Definition RATE_LIMITS : list (string * (nat * nat)) :=
  [ ("mcp__openai__.*", (10, 60)) ].

Definition check_rate_limit (tool_name : json) (limits : nat * nat) : bool :=
  true.

Definition show_nat (n : nat) : string := encode_int (Z.of_nat n).

Section Script.
Context {rt : Runtime}.

Definition blocked_output (tool_name : json) : json :=
  JDict [ ("decision", JStr "block");
          ("reason",
           JStr ("Tool " ++ format tool_name
                   ++ " is blocked by security policy")) ].

Definition rate_output (limit window : nat) : json :=
  JDict [ ("decision", JStr "block");
          ("reason",
           JStr ("Rate limit exceeded: " ++ show_nat limit
                   ++ " calls per " ++ show_nat window ++ "s")) ].

Fixpoint check_blocked (patterns : list string) (tool_name : json)
  : M unit :=
  match patterns with
  | [] => ret tt
  | pattern :: patterns' =>
      hit <- re_match pattern tool_name ;;
      if hit then print (dumps (blocked_output tool_name)) ;; sys_exit 0
      else check_blocked patterns' tool_name
  end.

Fixpoint check_rates (limits : list (string * (nat * nat)))
         (tool_name : json) : M unit :=
  match limits with
  | [] => ret tt
  | (pattern, (limit, window)) :: limits' =>
      hit <- re_match pattern tool_name ;;
      (if hit then
         if negb (check_rate_limit tool_name (limit, window))
         then print (dumps (rate_output limit window)) ;; sys_exit 0
         else ret tt
       else ret tt) ;;
      check_rates limits' tool_name
  end.

Definition log_entry (w : world) (tool_name tool_input : json) : json :=
  JDict [ ("timestamp", JStr (now_isoformat w));
          ("tool", tool_name);
          ("input", tool_input) ].

Definition config_home (w : world) : string :=
  match environ_get (environ w) "XDG_CONFIG_HOME" with
  | Some dir => dir
  | None => expanduser_config w
  end.

Definition log_dir (w : world) : string :=
  path_join (path_join (config_home w) "mcphost") "logs".

Definition log_path (w : world) : string :=
  path_join (log_dir w) "mcp-usage.jsonl".

Definition main (w : world) : M unit :=
  try_except
    (input_data <- load_stdin w ;;
     tool_name <- get input_data "tool_name" (JStr EmptyString) ;;
     check_blocked BLOCKED_MCP_TOOLS tool_name ;;
     check_rates RATE_LIMITS tool_name ;;
     tool_input <- get input_data "tool_input" (JDict []) ;;
     let entry := log_entry w tool_name tool_input in
     on_files (makedirs (log_dir w)) ;;
     on_files (append_file (log_path w) (dumps entry ++ newline)))
    hook_error.

(** Successive runs of the hook, each on the files the previous one
    left: the exit status and the final state of every run. *)
Fixpoint run_calls (calls : list world) (fs : filesystem)
  : list (nat * io) :=
  match calls with
  | [] => []
  | w :: calls' =>
      let (r, s) := main w (start fs) in
      (exit_status r, s) :: run_calls calls' (files s)
  end.

End Script.

End McpMonitor.

(** ** A concrete runtime

    The decoder of the [Json] module and a rendering of exceptions, used
    wherever a run is evaluated on a concrete input.  The wording of the
    interpreter's messages is no part of the scripts; [describe] gives
    every exception a text that names it. *)

Module Concrete.

Import Json Py.

Definition describe (e : exn) : string :=
  match e with
  | JSONDecodeError _ => "invalid JSON document"
  | AttributeError v attr =>
      "'" ++ type_name v ++ "' object has no attribute '" ++ attr ++ "'"
  | TypeError callee v =>
      if String.eqb callee "json.loads"
      then "the JSON object must be str, bytes or bytearray, not "
             ++ type_name v
      else "expected string or bytes-like object, got '"
             ++ type_name v ++ "'"
  | ReError pattern => "bad pattern " ++ pattern
  | OSError kind path =>
      (if String.eqb kind "FileExistsError" then "[Errno 17] File exists: '"
       else if String.eqb kind "NotADirectoryError"
            then "[Errno 20] Not a directory: '"
       else if String.eqb kind "IsADirectoryError"
            then "[Errno 21] Is a directory: '"
       else "[Errno 2] No such file or directory: '")
        ++ path ++ "'"
  end.

Definition runtime : Runtime :=
  {| json_loads := Json.loads; exn_str := describe |}.

End Concrete.


(** ** Vocabulary of the properties *)

Module Spec.

Import Json Py.

(** Every code point, for arguments by enumeration. *)
Definition all_ascii : list ascii := map ascii_of_nat (seq 0 256).

(** Two strings that differ at most in the case of their letters. *)
Fixpoint caseless (s s' : string) : bool :=
  match s, s' with
  | EmptyString, EmptyString => true
  | String a r, String b r' =>
      Ascii.eqb (Chr.lower a) (Chr.lower b) && caseless r r'
  | _, _ => false
  end.

(** The same for the character before a position, if any. *)
Definition caseless_prev (p p' : option ascii) : bool :=
  match p, p' with
  | None, None => true
  | Some a, Some b => Ascii.eqb (Chr.lower a) (Chr.lower b)
  | _, _ => false
  end.

(** [re.search(pattern, c, flags)] is a match. *)
Definition found (ignorecase : bool) (pattern c : string) : bool :=
  match Re.compile pattern with
  | Some r => Re.searches ignorecase r c
  | None => false
  end.

(** [re.match(pattern, t)] is a match. *)
Definition matched (pattern t : string) : bool :=
  match Re.compile pattern with
  | Some r => Re.matches false r t
  | None => false
  end.

(** The tool name matches a pattern of the blocked table. *)
Definition blocked (t : string) : bool :=
  existsb (fun pattern => matched pattern t) McpMonitor.BLOCKED_MCP_TOOLS.

(** The tool name matches the pattern of a rate-limit policy. *)
Definition rate_limited (t : string) : bool :=
  existsb (fun policy => matched (fst policy) t) McpMonitor.RATE_LIMITS.

(** The text of the file at a path, empty when there is none. *)
Definition content (fs : filesystem) (path : string) : string :=
  match fs path with
  | Some (File text) => text
  | _ => EmptyString
  end.

(** Every character of the string passes the test. *)
Fixpoint every (f : ascii -> bool) (s : string) : bool :=
  match s with
  | EmptyString => true
  | String c s' => f c && every f s'
  end.

(** Some character of the string passes the test. *)
Fixpoint some_char (f : ascii -> bool) (s : string) : bool :=
  match s with
  | EmptyString => false
  | String c s' => f c || some_char f s'
  end.

(** No line feed in the string. *)
Definition one_line (s : string) : bool :=
  every (fun c => negb (Chr.code_is 10 c)) s.

(** The pattern that is the given text, character by character. *)
Fixpoint literally (text : string) : Re.regex :=
  match text with
  | EmptyString => []
  | String c text' => Re.One (Re.Lit c) :: literally text'
  end.

(** The character before the position reached after reading [text]. *)
Fixpoint prev_after (text : string) (prev : option ascii) : option ascii :=
  match text with
  | EmptyString => prev
  | String c text' => prev_after text' (Some c)
  end.

(** The pattern belongs to the fragment [Re.compile] accepts. *)
Definition valid (pattern : string) : bool :=
  match Re.compile pattern with
  | Some _ => true
  | None => false
  end.

(** [l'] is [l] with further elements satisfying [P] put in, anywhere. *)
Inductive Adds {A : Type} (P : A -> Prop) : list A -> list A -> Prop :=
| adds_nil : Adds P [] []
| adds_keep x l l' : Adds P l l' -> Adds P (x :: l) (x :: l')
| adds_new x l l' : P x -> Adds P l l' -> Adds P l (x :: l').

(** The message of the first rule of the table found in the command,
    case ignored. *)
Fixpoint first_found (rules : list (string * string)) (c : string)
  : option string :=
  match rules with
  | [] => None
  | (pattern, message) :: rules' =>
      if found true pattern c then Some message else first_found rules' c
  end.

(** The rule is a sound pattern that is not found in the command. *)
Definition misses (c : string) (rule : string * string) : bool :=
  valid (fst rule) && negb (found true (fst rule) c).

Definition hits (c : string) (rule : string * string) : Prop :=
  found true (fst rule) c = true.

(** The suggestions whose pattern is found in the command, case
    respected, in table order. *)
Definition suggestions_for (rules : list (string * string)) (c : string)
  : list string :=
  map snd (filter (fun rule => found false (fst rule) c) rules).

(** [sub] occurs in [s]. *)
Fixpoint contains (sub s : string) : bool :=
  match strip_prefix sub s with
  | Some _ => true
  | None =>
      match s with
      | String _ s' => contains sub s'
      | EmptyString => false
      end
  end.

(** No dictionary of the value has a key twice, as in every value built
    by Python. *)
Fixpoint keys_unique (d : list string) : bool :=
  match d with
  | [] => true
  | k :: d' => negb (existsb (String.eqb k) d') && keys_unique d'
  end.

Fixpoint wf (v : json) : bool :=
  match v with
  | JList l => forallb wf l
  | JDict d =>
      keys_unique (map fst d)
      && forallb (fun kv => match kv with (_, x) => wf x end) d
  | _ => true
  end.

(** What may follow an encoded integer without changing its reading:
    no digit, no fraction, no exponent. *)
Definition terminator (rest : string) : bool :=
  negb (starts_with_digit rest) && negb (float_tail rest).

(** The characters an encoded integer can start with, and those any
    encoded value can start with. *)
Definition number_start (c : ascii) : bool :=
  Chr.isdigit c || Ascii.eqb c "-".

Definition value_start (c : ascii) : bool :=
  number_start c
  || existsb (Ascii.eqb c) (dquote :: list_ascii_of_string "ntf[{").

(** The inside of an encoded list and of an encoded dictionary. *)
Fixpoint dumps_items (l : list json) : string :=
  match l with
  | [] => EmptyString
  | [x] => dumps x
  | x :: l' => dumps x ++ ", " ++ dumps_items l'
  end.

Fixpoint dumps_members (d : list (string * json)) : string :=
  match d with
  | [] => EmptyString
  | [(k, x)] => encode_string k ++ ": " ++ dumps x
  | (k, x) :: d' => encode_string k ++ ": " ++ dumps x ++ ", " ++ dumps_members d'
  end.

(** Fuel that is enough to decode the encoding of a value. *)
Fixpoint need (v : json) : nat :=
  match v with
  | JList l => S (fold_right (fun x n => S (need x + n)) 0 l)
  | JDict d =>
      S (fold_right (fun kv n => match kv with (_, x) => S (need x + n) end)
                    0 d)
  | _ => 1
  end.

(** Decoding the encoding of [v] gives [v] back and stops where the
    encoding ends. *)
Definition decodes (v : json) : Prop :=
  wf v = true ->
  forall fuel rest,
    need v <= fuel -> terminator rest = true ->
    parse_value fuel (dumps v ++ rest) = Some (v, rest).

Section Requests.
Context {rt : Runtime}.

(** The command of a request to the bash validator: standard input
    decodes to a dictionary, the tool is [bash], the tool input is a
    string that decodes to a dictionary, whose [command] is returned. *)
Definition bash_command (w : world) : option json :=
  match json_loads (stdin w) with
  | Some (JDict d) =>
      if is_str "bash" (dict_get_or d "tool_name" JNull) then
        match dict_get_or d "tool_input" (JStr "{}") with
        | JStr text =>
            match json_loads text with
            | Some (JDict p) => Some (dict_get_or p "command" (JStr EmptyString))
            | _ => None
            end
        | _ => None
        end
      else None
  | _ => None
  end.

(** The tool name and tool input of a request to the monitor. *)
Definition tool_call (w : world) : option (json * json) :=
  match json_loads (stdin w) with
  | Some (JDict d) =>
      Some (dict_get_or d "tool_name" (JStr EmptyString),
            dict_get_or d "tool_input" (JDict []))
  | _ => None
  end.

(** The request is a call of a tool with a string for name that no
    pattern of the blocked table matches. *)
Definition loggable (w : world) : bool :=
  match tool_call w with
  | Some (JStr t, _) => negb (blocked t)
  | _ => false
  end.

(** The line the monitor writes for a request. *)
Definition log_line (w : world) : string :=
  match tool_call w with
  | Some (tool_name, tool_input) =>
      dumps (McpMonitor.log_entry w tool_name tool_input) ++ newline
  | None => EmptyString
  end.

End Requests.

(** The files left by the last of several runs, [fs] if there is none. *)
Definition final_files (runs : list (nat * io)) (fs : filesystem)
  : filesystem :=
  last (map (fun run => files (snd run)) runs) fs.

(** The path has a node in the file system. *)
Definition exists_in (fs : filesystem) (path : string) : bool :=
  match fs path with
  | Some _ => true
  | None => false
  end.

(** The log of [w] is ready: the directories on the way to it are there
    and it is a file. *)
Definition log_ready (w : world) (fs : filesystem) : Prop :=
  forallb (exists_in fs)
          (parents (McpMonitor.log_dir w) ++ [McpMonitor.log_dir w])%list
  = true
  /\ fs (McpMonitor.log_dir w) = Some Dir
  /\ exists text, fs (McpMonitor.log_path w) = Some (File text).

End Spec.

(** ** Sample requests *)

Module Sample.

Import Json Py.

(** A request as the host encodes it: the tool input of a shell call is
    itself an encoded object. *)
Definition bash_request (tool command : string) : string :=
  dumps (JDict [ ("tool_name", JStr tool);
                 ("tool_input",
                  JStr (dumps (JDict [ ("command", JStr command) ]))) ]).

Definition tool_request (tool : string) (input : json) : string :=
  dumps (JDict [ ("tool_name", JStr tool); ("tool_input", input) ]).

Definition at_noon (text : string) : world :=
  {| stdin := text;
     environ := [ ("HOME", "/home/dev") ];
     pw_dir := None;
     now_isoformat := "2025-03-01T12:00:00.000000" |}.

Definition empty_fs : filesystem := fun _ => None.

(** A home directory where a regular file sits at [~/.config]. *)
Definition blocked_fs : filesystem :=
  fs_set (fs_set (fs_set empty_fs "/home" Dir) "/home/dev" Dir)
         "/home/dev/.config" (File "not a directory").

End Sample.

(** * Properties *)

Import Json Py Spec BashValidator McpMonitor.

(** ** Characters and case *)

Lemma all_ascii_complete (c : ascii) : List.In c all_ascii.
Proof.
  unfold all_ascii. rewrite <- (ascii_nat_embedding c).
  apply in_map, in_seq. pose proof (nat_ascii_bounded c). lia.
Qed.

Lemma by_enumeration (P : ascii -> bool) :
  forallb P all_ascii = true -> forall c, P c = true.
Proof.
  intros H c. rewrite forallb_forall in H. apply H, all_ascii_complete.
Qed.

Lemma isspace_lower (c : ascii) : Chr.isspace (Chr.lower c) = Chr.isspace c.
Proof.
  apply Bool.eqb_prop.
  apply (by_enumeration
           (fun c => Bool.eqb (Chr.isspace (Chr.lower c)) (Chr.isspace c))).
  vm_compute. reflexivity.
Qed.

Lemma isword_lower (c : ascii) : Chr.isword (Chr.lower c) = Chr.isword c.
Proof.
  apply Bool.eqb_prop.
  apply (by_enumeration
           (fun c => Bool.eqb (Chr.isword (Chr.lower c)) (Chr.isword c))).
  vm_compute. reflexivity.
Qed.

Lemma newline_lower (c : ascii) :
  Chr.code_is 10 (Chr.lower c) = Chr.code_is 10 c.
Proof.
  apply Bool.eqb_prop.
  apply (by_enumeration
           (fun c => Bool.eqb (Chr.code_is 10 (Chr.lower c)) (Chr.code_is 10 c))).
  vm_compute. reflexivity.
Qed.

(** Under [re.IGNORECASE] an atom sees a character through its lower
    case only. *)
Lemma atom_match_lower (a : Re.atom) (c c' : ascii) :
  Chr.lower c = Chr.lower c' ->
  Re.atom_match true a c = Re.atom_match true a c'.
Proof.
  intros E. destruct a as [x | | | items]; simpl.
  - now rewrite E.
  - now rewrite <- (newline_lower c), <- (newline_lower c'), E.
  - now rewrite <- (isspace_lower c), <- (isspace_lower c'), E.
  - induction items as [| i items IH]; simpl; [reflexivity |].
    rewrite IH. f_equal. destruct i; simpl; now rewrite E.
Qed.

Lemma word_at_lower (c c' : ascii) :
  Chr.lower c = Chr.lower c' ->
  Re.word_at (Some c) = Re.word_at (Some c').
Proof.
  intros E. simpl.
  now rewrite <- (isword_lower c), <- (isword_lower c'), E.
Qed.

(** ** Matching under [re.IGNORECASE] does not see the case of letters *)

Lemma word_at_caseless (p p' : option ascii) :
  caseless_prev p p' = true -> Re.word_at p = Re.word_at p'.
Proof.
  destruct p as [a |], p' as [b |]; simpl; try discriminate; auto.
  intros E. apply Ascii.eqb_eq in E. now apply word_at_lower.
Qed.

Lemma peek_caseless (s s' : string) :
  caseless s s' = true -> caseless_prev (Re.peek s) (Re.peek s') = true.
Proof.
  destruct s, s'; simpl; try discriminate; auto.
  intros H. now apply andb_prop in H.
Qed.

Lemma repeat_then_caseless (a : Re.atom)
      (k k' : option ascii -> string -> bool) :
  (forall prev prev' s s',
      caseless_prev prev prev' = true -> caseless s s' = true ->
      k prev s = k' prev' s') ->
  forall s s' prev prev',
    caseless_prev prev prev' = true -> caseless s s' = true ->
    Re.repeat_then (Re.atom_match true a) k prev s
    = Re.repeat_then (Re.atom_match true a) k' prev' s'.
Proof.
  intros Hk. induction s as [| c s IH]; intros [| c' s'] prev prev' Hp Hs;
    simpl in Hs; try discriminate; simpl.
  - now apply Hk.
  - apply andb_prop in Hs as [Hc Hs]. pose proof Hc as Hc'.
    apply Ascii.eqb_eq in Hc.
    rewrite (atom_match_lower a c c' Hc).
    rewrite (IH s' (Some c) (Some c')); simpl; auto.
    f_equal. apply Hk; simpl; auto. now rewrite Hc', Hs.
Qed.

Lemma match_here_caseless (r : Re.regex) :
  forall prev prev' s s',
    caseless_prev prev prev' = true -> caseless s s' = true ->
    Re.match_here true r prev s = Re.match_here true r prev' s'.
Proof.
  induction r as [| n r IH]; intros prev prev' s s' Hp Hs; [reflexivity |].
  destruct n as [a | a | a |]; simpl.
  - destruct s as [| c s], s' as [| c' s']; simpl in Hs; try discriminate;
      [reflexivity |].
    apply andb_prop in Hs as [Hc Hs]. pose proof Hc as Hc'.
    apply Ascii.eqb_eq in Hc.
    rewrite (atom_match_lower a c c' Hc). f_equal. now apply IH.
  - now apply repeat_then_caseless.
  - destruct s as [| c s], s' as [| c' s']; simpl in Hs; try discriminate;
      [reflexivity |].
    apply andb_prop in Hs as [Hc Hs]. pose proof Hc as Hc'.
    apply Ascii.eqb_eq in Hc.
    rewrite (atom_match_lower a c c' Hc). f_equal.
    now apply repeat_then_caseless.
  - rewrite (word_at_caseless prev prev' Hp).
    rewrite (word_at_caseless _ _ (peek_caseless s s' Hs)).
    f_equal. now apply IH.
Qed.

Lemma search_from_caseless (r : Re.regex) :
  forall s s' prev prev',
    caseless_prev prev prev' = true -> caseless s s' = true ->
    Re.search_from true r prev s = Re.search_from true r prev' s'.
Proof.
  induction s as [| c s IH]; intros [| c' s'] prev prev' Hp Hs;
    simpl in Hs; try discriminate; simpl.
  - now rewrite (match_here_caseless r prev prev' EmptyString EmptyString).
  - pose proof Hs as Hs0. apply andb_prop in Hs as [Hc Hs].
    rewrite (match_here_caseless r prev prev' (String c s) (String c' s'));
      simpl; auto.
    f_equal. now apply IH.
Qed.

Lemma found_caseless (pattern c c' : string) :
  caseless c c' = true -> found true pattern c = found true pattern c'.
Proof.
  intros H. unfold found. destruct (Re.compile pattern); [| reflexivity].
  now apply search_from_caseless.
Qed.

(** ** Running the library calls *)

Section Runs.
Context {rt : Runtime}.

Lemma re_search_found (pattern c : string) (ignorecase : bool) (s : io) :
  valid pattern = true ->
  re_search pattern (JStr c) ignorecase s = (Ret (found ignorecase pattern c), s).
Proof.
  unfold valid, re_search, found.
  destruct (Re.compile pattern); [reflexivity | discriminate].
Qed.

Lemma found_valid (ignorecase : bool) (pattern c : string) :
  found ignorecase pattern c = true -> valid pattern = true.
Proof.
  unfold found, valid. destruct (Re.compile pattern); [reflexivity | discriminate].
Qed.

Lemma re_match_matched (pattern t : string) (s : io) :
  valid pattern = true ->
  re_match pattern (JStr t) s = (Ret (matched pattern t), s).
Proof.
  unfold valid, re_match, matched.
  destruct (Re.compile pattern); [reflexivity | discriminate].
Qed.

(** The dangerous-pattern loop stops at the first rule found. *)
Lemma check_dangerous_hit (c : string) (pre post : list (string * string))
      (p m : string) (s : io) :
  forallb (misses c) pre = true ->
  found true p c = true ->
  check_dangerous (pre ++ (p, m) :: post) (JStr c) s
  = (Exit 2, {| stdout := stdout s;
                stderr := stderr s ++ m ++ newline;
                files := files s |}).
Proof.
  intros Hpre Hp. induction pre as [| [q n] pre IH]; simpl.
  - unfold bind. rewrite re_search_found by (eapply found_valid; eassumption).
    rewrite Hp. reflexivity.
  - simpl in Hpre. apply andb_prop in Hpre as [Hq Hpre].
    unfold misses in Hq. simpl in Hq. apply andb_prop in Hq as [Hv Hn].
    unfold bind at 1. rewrite re_search_found by assumption.
    apply negb_true_iff in Hn. rewrite Hn. now apply IH.
Qed.

Lemma check_dangerous_miss (c : string) (rules : list (string * string))
      (s : io) :
  forallb (misses c) rules = true ->
  check_dangerous rules (JStr c) s = (Ret tt, s).
Proof.
  induction rules as [| [q n] rules IH]; simpl; intros H; [reflexivity |].
  apply andb_prop in H as [Hq H].
  unfold misses in Hq. simpl in Hq. apply andb_prop in Hq as [Hv Hn].
  unfold bind at 1. rewrite re_search_found by assumption.
  apply negb_true_iff in Hn. rewrite Hn. now apply IH.
Qed.

(** The suggestion loop gathers, after what it was given, the messages of
    the rules found. *)
Lemma collect_suggestions_run (c : string) (rules : list (string * string)) :
  forallb (fun rule => valid (fst rule)) rules = true ->
  forall (acc : list string) (s : io),
    collect_suggestions rules (JStr c) acc s
    = (Ret (acc ++ suggestions_for rules c)%list, s).
Proof.
  induction rules as [| [q n] rules IH]; simpl; intros H acc s.
  - unfold suggestions_for. simpl. now rewrite app_nil_r.
  - apply andb_prop in H as [Hv H]. simpl in Hv.
    unfold bind. rewrite re_search_found by assumption.
    rewrite IH by assumption. unfold suggestions_for. simpl.
    destruct (found false q c); simpl; [| reflexivity].
    now rewrite <- app_assoc.
Qed.

(** A request for [bash]: the script comes down to its two loops. *)
Lemma validate_bash (dangerous suggest : list (string * string))
      (w : world) (command : json) (s : io) :
  bash_command w = Some command ->
  validate dangerous suggest w s
  = try_except
      (bind (check_dangerous dangerous command) (fun _ =>
       bind (collect_suggestions suggest command []) (fun suggestions =>
       match suggestions with
       | [] => ret tt
       | _ => print (dumps (approval suggestions))
       end)))
      hook_error s.
Proof.
  unfold bash_command, validate, try_except, load_stdin, loads_value.
  intros H. unfold bind at 1.
  destruct (json_loads (stdin w)) as [[| | | | | d] |]; try discriminate.
  unfold ret at 1. unfold bind at 1. unfold get at 1, ret at 1.
  destruct (is_str "bash" (dict_get_or d "tool_name" JNull)) eqn:Eb;
    [| discriminate].
  unfold bind at 1. simpl negb. cbv iota. unfold ret at 1.
  unfold bind at 1. unfold get at 1, ret at 1.
  destruct (dict_get_or d "tool_input" (JStr "{}")) as [| | | text | |];
    try discriminate.
  unfold bind at 1.
  destruct (json_loads text) as [[| | | | | p] |]; try discriminate.
  unfold ret at 1. unfold bind at 1. unfold get at 1, ret at 1.
  injection H as <-. reflexivity.
Qed.

(** Any other tool: exit 0 at once, nothing written. *)
Lemma validate_other_tool (dangerous suggest : list (string * string))
      (w : world) (d : list (string * json)) (s : io) :
  json_loads (stdin w) = Some (JDict d) ->
  is_str "bash" (dict_get_or d "tool_name" JNull) = false ->
  validate dangerous suggest w s = (Exit 0, s).
Proof.
  intros Hd Hn.
  unfold validate, try_except, load_stdin, loads_value, bind, get, ret.
  rewrite Hd, Hn. reflexivity.
Qed.

End Runs.

(** ** The bash validator *)

Lemma dangerous_patterns_valid :
  forallb (fun rule => valid (fst rule)) DANGEROUS_PATTERNS = true.
Proof. vm_compute. reflexivity. Qed.

Lemma suggest_patterns_valid :
  forallb (fun rule => valid (fst rule)) SUGGEST_ALTERNATIVES = true.
Proof. vm_compute. reflexivity. Qed.

Lemma none_found_misses (c : string) (rules : list (string * string)) :
  forallb (fun rule => valid (fst rule)) rules = true ->
  existsb (fun rule => found true (fst rule) c) rules = false ->
  forallb (misses c) rules = true.
Proof.
  induction rules as [| rule rules IH]; simpl; intros Hv Hf; [reflexivity |].
  apply andb_prop in Hv as [Hv Hvs]. apply orb_false_elim in Hf as [Hf Hfs].
  unfold misses at 1. rewrite Hv, Hf. simpl. now apply IH.
Qed.

Lemma not_bash (d : list (string * json)) :
  dict_get d "tool_name" <> Some (JStr "bash") ->
  is_str "bash" (dict_get_or d "tool_name" JNull) = false.
Proof.
  intros H. unfold dict_get_or. destruct (dict_get d "tool_name") as [v |];
    [| reflexivity].
  destruct v; try reflexivity. simpl.
  destruct (String.eqb s "bash") eqn:E; [| reflexivity].
  apply String.eqb_eq in E. subst. now elim H.
Qed.

(** C9.  A request that decodes to a dictionary whose [tool_name] is not
    exactly the string [bash] makes the validator exit with status 0,
    nothing written on either stream and no file touched; this does not
    depend on the rule tables, so no dangerous-command or suggestion rule
    is applied, whatever the tool input holds. *)
Theorem other_tools_pass_unchecked {rt : Runtime} (w : world)
        (d : list (string * json)) (fs : filesystem) :
  json_loads (stdin w) = Some (JDict d) ->
  dict_get d "tool_name" <> Some (JStr "bash") ->
  BashValidator.main w (start fs) = (Exit 0, start fs)
  /\ exit_status (fst (BashValidator.main w (start fs))) = 0
  /\ forall dangerous suggest,
      validate dangerous suggest w (start fs) = (Exit 0, start fs).
Proof.
  intros Hd Hn. apply not_bash in Hn.
  assert (H : forall dangerous suggest,
             validate dangerous suggest w (start fs) = (Exit 0, start fs))
    by (intros; now apply validate_other_tool with (d := d)).
  unfold BashValidator.main. rewrite H. auto.
Qed.

Lemma other_tools_pass_unchecked_witness :
  let w := Sample.at_noon (Sample.bash_request "Bash" "rm -rf /") in
  BashValidator.main (rt := Concrete.runtime) w (start Sample.empty_fs)
  = (Exit 0, start Sample.empty_fs).
Proof.
  intros w.
  refine (proj1 (other_tools_pass_unchecked (rt := Concrete.runtime) w
            [ ("tool_name", JStr "Bash");
              ("tool_input", JStr (dumps (JDict [ ("command", JStr "rm -rf /") ]))) ]
            Sample.empty_fs _ _)).
  - vm_compute. reflexivity.
  - vm_compute. discriminate.
Defined.

(** The text [> /dev/null 2>&1], wherever it stands in a command, is an
    occurrence of the third dangerous pattern. *)
Lemma search_from_skip (r : Re.regex) (pre rest : string) :
  forall prev,
    (forall p, Re.match_here true r p rest = true) ->
    Re.search_from true r prev (pre ++ rest) = true.
Proof.
  induction pre as [| c pre IH]; intros prev H; simpl.
  - destruct rest; simpl; now rewrite H.
  - rewrite IH by assumption. apply orb_true_r.
Qed.

Lemma redirect_found (pre post : string) :
  found true ">\s*/dev/null\s+2>&1" (pre ++ "> /dev/null 2>&1" ++ post) = true.
Proof.
  unfold found.
  change (Re.compile ">\s*/dev/null\s+2>&1")
    with (Some [Re.One (Re.Lit ">"); Re.Star Re.Space; Re.One (Re.Lit "/");
                Re.One (Re.Lit "d"); Re.One (Re.Lit "e"); Re.One (Re.Lit "v");
                Re.One (Re.Lit "/"); Re.One (Re.Lit "n"); Re.One (Re.Lit "u");
                Re.One (Re.Lit "l"); Re.One (Re.Lit "l"); Re.Plus Re.Space;
                Re.One (Re.Lit "2"); Re.One (Re.Lit ">"); Re.One (Re.Lit "&");
                Re.One (Re.Lit "1")]).
  apply search_from_skip. intros p. vm_compute. reflexivity.
Qed.

(** C10.  A bash command in which the pattern of the third dangerous rule
    (a redirect of the shape [> /dev/null 2>&1]) is found, and neither of
    the two rules before it, is blocked: exit status 2, the message of the
    rule on the error stream, nothing on standard output. *)
Theorem stderr_discard_is_blocked {rt : Runtime} (w : world) (c : string)
        (fs : filesystem) :
  bash_command w = Some (JStr c) ->
  found true ">\s*/dev/null\s+2>&1" c = true ->
  found true "\brm\s+-rf\s+/" c = false ->
  found true "\bdd\s+.*\bof=/dev/[sh]d[a-z]" c = false ->
  BashValidator.main w (start fs)
  = (Exit 2,
     {| stdout := EmptyString;
        stderr := "Consider using proper error handling instead of discarding stderr"
                    ++ newline;
        files := fs |})
  /\ exit_status (fst (BashValidator.main w (start fs))) = 2.
Proof.
  intros Hc H3 H1 H2.
  assert (E : BashValidator.main w (start fs)
              = (Exit 2,
                 {| stdout := EmptyString;
                    stderr := "Consider using proper error handling instead of discarding stderr"
                                ++ newline;
                    files := fs |})).
  { unfold BashValidator.main. rewrite (validate_bash _ _ w (JStr c)) by assumption.
    unfold try_except, bind at 1.
    change DANGEROUS_PATTERNS
      with ([ ("\brm\s+-rf\s+/", "Dangerous command: rm -rf /");
              ("\bdd\s+.*\bof=/dev/[sh]d[a-z]", "Direct disk write detected") ]
              ++ (">\s*/dev/null\s+2>&1",
                  "Consider using proper error handling instead of discarding stderr")
              :: [])%list.
    rewrite check_dangerous_hit; [reflexivity | | assumption].
    simpl. unfold misses. simpl fst. rewrite H1, H2. vm_compute. reflexivity. }
  rewrite E. auto.
Qed.

Lemma stderr_discard_is_blocked_witness :
  let w := Sample.at_noon (Sample.bash_request "bash" "make > /dev/null 2>&1") in
  exit_status (fst (BashValidator.main (rt := Concrete.runtime) w
                      (start Sample.empty_fs))) = 2.
Proof.
  intros w.
  refine (proj2 (stderr_discard_is_blocked (rt := Concrete.runtime) w
                   "make > /dev/null 2>&1" Sample.empty_fs _ _ _ _));
    vm_compute; reflexivity.
Defined.

(** Putting further rules that hit into a table that has a first hit
    leaves a table that has a first hit. *)
Lemma adds_first_hit (c : string) (rules rules' : list (string * string)) :
  Adds (hits c) rules rules' ->
  forall pre p m post,
    rules = (pre ++ (p, m) :: post)%list ->
    forallb (misses c) pre = true ->
    found true p c = true ->
    exists pre' p' m' post',
      rules' = (pre' ++ (p', m') :: post')%list
      /\ forallb (misses c) pre' = true
      /\ found true p' c = true.
Proof.
  induction 1 as [| x l l' HA IH | [q n] l l' Hx HA IH];
    intros pre p m post E Hpre Hp.
  - destruct pre; discriminate.
  - destruct pre as [| y pre]; simpl in E; injection E as -> ->.
    + exists [], p, m, l'. auto.
    + simpl in Hpre. apply andb_prop in Hpre as [Hy Hpre].
      destruct (IH pre p m post eq_refl Hpre Hp)
        as (pre' & p' & m' & post' & -> & Hpre' & Hp').
      exists (y :: pre'), p', m', post'. simpl. rewrite Hy. auto.
  - exists [], q, n, l'. auto.
Qed.

(** C6.  A bash command in which at least one dangerous pattern is found
    is blocked, with the message of the first such rule, in table order,
    on the error stream; and rules that hit the command, put anywhere
    into the table, leave the action a block. *)
Theorem first_dangerous_rule_blocks {rt : Runtime} (w : world) (c : string)
        (fs : filesystem) (suggest pre post : list (string * string))
        (p m : string) :
  bash_command w = Some (JStr c) ->
  forallb (misses c) pre = true ->
  found true p c = true ->
  validate (pre ++ (p, m) :: post) suggest w (start fs)
  = (Exit 2,
     {| stdout := EmptyString; stderr := m ++ newline; files := fs |})
  /\ forall rules',
      Adds (hits c) (pre ++ (p, m) :: post) rules' ->
      exists m',
        List.In m' (map snd rules')
        /\ validate rules' suggest w (start fs)
           = (Exit 2,
              {| stdout := EmptyString; stderr := m' ++ newline; files := fs |}).
Proof.
  intros Hc Hpre Hp.
  assert (G : forall pre p m post,
             forallb (misses c) pre = true -> found true p c = true ->
             validate (pre ++ (p, m) :: post) suggest w (start fs)
             = (Exit 2,
                {| stdout := EmptyString; stderr := m ++ newline; files := fs |})).
  { intros pre0 p0 m0 post0 Hpre0 Hp0.
    rewrite (validate_bash _ _ w (JStr c)) by assumption.
    unfold try_except, bind at 1.
    rewrite check_dangerous_hit by assumption. reflexivity. }
  split; [now apply G |].
  intros rules' HA.
  destruct (adds_first_hit c _ _ HA pre p m post eq_refl Hpre Hp)
    as (pre' & p' & m' & post' & -> & Hpre' & Hp').
  exists m'. split; [| now apply G].
  rewrite map_app. apply in_or_app. right. simpl. auto.
Qed.

Lemma first_dangerous_rule_blocks_witness :
  let w := Sample.at_noon (Sample.bash_request "bash" "sudo rm -rf /tmp") in
  BashValidator.main (rt := Concrete.runtime) w (start Sample.empty_fs)
  = (Exit 2,
     {| stdout := EmptyString;
        stderr := "Dangerous command: rm -rf /" ++ newline;
        files := Sample.empty_fs |}).
Proof.
  intros w.
  refine (proj1 (first_dangerous_rule_blocks (rt := Concrete.runtime) w
                   "sudo rm -rf /tmp" Sample.empty_fs SUGGEST_ALTERNATIVES
                   [] (tl DANGEROUS_PATTERNS)
                   "\brm\s+-rf\s+/" "Dangerous command: rm -rf /" _ _ _));
    vm_compute; reflexivity.
Defined.

(** C7.  A bash command in which no dangerous pattern is found and at
    least one alternative pattern is: the object with decision [approve]
    goes to standard output, nothing to the error stream, the script ends
    with status 0; the reason is the fixed prefix followed by the found
    suggestions joined by semicolons, these being exactly the messages of
    the alternative rules found, and it holds no dangerous rule's
    message. *)
Theorem suggestions_are_approved {rt : Runtime} (w : world) (c : string)
        (fs : filesystem) :
  bash_command w = Some (JStr c) ->
  existsb (fun rule => found true (fst rule) c) DANGEROUS_PATTERNS = false ->
  existsb (fun rule => found false (fst rule) c) SUGGEST_ALTERNATIVES = true ->
  let given := suggestions_for SUGGEST_ALTERNATIVES c in
  let reason := "Command approved. Suggestions: " ++ join "; " given in
  BashValidator.main w (start fs)
  = (Ret tt,
     {| stdout := dumps (JDict [ ("decision", JStr "approve");
                                 ("reason", JStr reason) ]) ++ newline;
        stderr := EmptyString;
        files := fs |})
  /\ exit_status (fst (BashValidator.main w (start fs))) = 0
  /\ (forall pattern message,
         List.In (pattern, message) SUGGEST_ALTERNATIVES ->
         (found false pattern c = true <-> List.In message given))
  /\ (forall pattern message,
         List.In (pattern, message) SUGGEST_ALTERNATIVES ->
         found false pattern c = true -> contains message reason = true)
  /\ (forall pattern message,
         List.In (pattern, message) DANGEROUS_PATTERNS ->
         contains message reason = false).
Proof.
  intros Hc Hd Hs given reason.
  assert (E : BashValidator.main w (start fs)
              = (Ret tt,
                 {| stdout := dumps (JDict [ ("decision", JStr "approve");
                                             ("reason", JStr reason) ]) ++ newline;
                    stderr := EmptyString;
                    files := fs |})).
  { unfold BashValidator.main. rewrite (validate_bash _ _ w (JStr c)) by assumption.
    unfold try_except, bind at 1.
    rewrite check_dangerous_miss
      by (apply none_found_misses; [apply dangerous_patterns_valid | assumption]).
    unfold bind at 1.
    rewrite collect_suggestions_run by apply suggest_patterns_valid.
    simpl app. fold given.
    assert (N : given <> []).
    { subst given. unfold suggestions_for.
      intros F. apply map_eq_nil in F.
      apply existsb_exists in Hs as (x & Hx & Hf).
      assert (I : List.In x (filter (fun rule => found false (fst rule) c)
                               SUGGEST_ALTERNATIVES))
        by (apply filter_In; auto).
      rewrite F in I. exact I. }
    destruct given as [| g given'] eqn:Eg; [now elim N |]. reflexivity. }
  split; [exact E |]. split; [now rewrite E |].
  subst reason given. unfold suggestions_for, SUGGEST_ALTERNATIVES.
  cbn [filter map fst snd].
  unfold SUGGEST_ALTERNATIVES in Hs. cbn [existsb fst] in Hs.
  destruct (found false "\bgrep\b" c) eqn:E1;
    destruct (found false "\bfind\s+.*-name" c) eqn:E2;
    try discriminate Hs; cbn [filter map fst snd].
  all: split; [| split].
  all: try (intros pattern message [I | [I | []]]; injection I as <- <-;
            try rewrite E1; try rewrite E2; simpl; intuition congruence).
  all: try (intros pattern message [I | [I | []]] F; injection I as <- <-;
            try (rewrite E1 in F; discriminate F);
            try (rewrite E2 in F; discriminate F);
            vm_compute; reflexivity).
  all: intros pattern message [I | [I | [I | []]]]; injection I as <- <-;
    vm_compute; reflexivity.
Qed.

Lemma suggestions_are_approved_witness :
  let w := Sample.at_noon (Sample.bash_request "bash" "find . -name x | grep y") in
  exit_status (fst (BashValidator.main (rt := Concrete.runtime) w
                      (start Sample.empty_fs))) = 0.
Proof.
  intros w.
  refine (proj1 (proj2 (suggestions_are_approved (rt := Concrete.runtime) w
                          "find . -name x | grep y" Sample.empty_fs _ _ _)));
    vm_compute; reflexivity.
Defined.

(** ** Case-sensitive matching of literal text *)

Lemma match_literally (text : string) (r : Re.regex) :
  forall prev t,
    Re.match_here false (literally text ++ r)%list prev t = true
    <-> exists rest,
        t = text ++ rest
        /\ Re.match_here false r (prev_after text prev) rest = true.
Proof.
  induction text as [| c text IH]; intros prev t; simpl.
  - split; [intros H; now exists t | intros (rest & -> & H); exact H].
  - destruct t as [| c' t]; simpl.
    + split; [discriminate | intros (rest & E & _); discriminate].
    + split.
      * intros H. apply andb_prop in H as [Hc H]. apply Ascii.eqb_eq in Hc.
        subst c'. apply IH in H as (rest & -> & H). now exists rest.
      * intros (rest & E & H). injection E as -> ->.
        rewrite Ascii.eqb_refl. simpl. apply IH. now exists rest.
Qed.

Lemma repeat_then_split (f : ascii -> bool)
      (k : option ascii -> string -> bool) :
  forall s prev,
    Re.repeat_then f k prev s = true
    <-> exists mid rest,
        s = mid ++ rest /\ every f mid = true
        /\ k (prev_after mid prev) rest = true.
Proof.
  induction s as [| c s IH]; intros prev; simpl.
  - split.
    + intros H. exists EmptyString, EmptyString. auto.
    + intros (mid & rest & E & _ & H).
      destruct mid; [| discriminate]. simpl in E. now subst rest.
  - split.
    + intros H. apply orb_prop in H as [H | H].
      * apply andb_prop in H as [Hc H].
        apply IH in H as (mid & rest & -> & Hm & H).
        exists (String c mid), rest. simpl. rewrite Hc, Hm. auto.
      * exists EmptyString, (String c s). auto.
    + intros (mid & rest & E & Hm & H). destruct mid as [| c' mid].
      * simpl in E, H. subst rest. rewrite H. apply orb_true_r.
      * simpl in E, Hm, H. injection E as -> ->.
        apply andb_prop in Hm as [Hc Hm]. rewrite Hc. simpl.
        apply orb_true_intro. left. apply IH. now exists mid, rest.
Qed.

Lemma repeat_then_any_end (prev : option ascii) (s : string) :
  Re.repeat_then (Re.atom_match false Re.Any) (Re.match_here false []) prev s
  = true.
Proof.
  revert prev. induction s as [| c s IH]; intros prev; simpl; [reflexivity |].
  apply orb_true_r.
Qed.

Lemma blocked_patterns_valid :
  forallb valid BLOCKED_MCP_TOOLS = true.
Proof. vm_compute. reflexivity. Qed.

(** The tool names the blocked table matches, spelled out. *)
Lemma blocked_exactly (t : string) :
  blocked t = true
  <-> (exists rest, t = "mcp__github__delete_" ++ rest)
      \/ (exists mid rest,
             t = "mcp__aws__" ++ mid ++ "_production" ++ rest
             /\ one_line mid = true).
Proof.
  unfold blocked, BLOCKED_MCP_TOOLS, matched. cbn [existsb].
  change (Re.compile "mcp__github__delete_.*")
    with (Some (literally "mcp__github__delete_" ++ [Re.Star Re.Any])%list).
  change (Re.compile "mcp__aws__.*_production")
    with (Some (literally "mcp__aws__"
                  ++ Re.Star Re.Any :: literally "_production" ++ [])%list).
  unfold Re.matches. rewrite orb_false_r.
  split.
  - intros H. apply orb_prop in H as [H | H].
    + apply match_literally in H as (rest & -> & _). left. now exists rest.
    + apply match_literally in H as (rest & -> & H). right.
      cbn [Re.match_here] in H.
      apply repeat_then_split in H as (mid & rest' & -> & Hm & H).
      apply match_literally in H as (rest'' & -> & _).
      now exists mid, rest''.
  - intros [(rest & ->) | (mid & rest & -> & Hm)]; apply orb_true_intro.
    + left. apply match_literally. exists rest. split; [reflexivity |].
      cbn [Re.match_here]. apply repeat_then_any_end.
    + right. apply match_literally.
      exists (mid ++ "_production" ++ rest). split; [reflexivity |].
      cbn [Re.match_here]. apply repeat_then_split.
      exists mid, ("_production" ++ rest).
      split; [reflexivity |]. split; [exact Hm |].
      apply match_literally. exists rest. split; reflexivity.
Qed.

(** The dangerous loop runs alike on two commands that differ in case
    only. *)
Lemma check_dangerous_caseless (c c' : string)
      (rules : list (string * string)) (s : io) :
  caseless c c' = true ->
  check_dangerous rules (JStr c) s = check_dangerous rules (JStr c') s.
Proof.
  intros H. induction rules as [| [p m] rules IH]; simpl; [reflexivity |].
  unfold bind, re_search.
  destruct (Re.compile p) as [r |] eqn:E; [| reflexivity].
  unfold ret. pose proof (found_caseless p c c' H) as F.
  unfold found in F. rewrite E in F. rewrite F.
  destruct (Re.searches true r c'); [reflexivity | exact IH].
Qed.



(** ** The monitor *)

Section MonitorRuns.
Context {rt : Runtime}.

Lemma check_dangerous_first_found (c : string)
      (rules : list (string * string)) (s : io) :
  forallb (fun rule => valid (fst rule)) rules = true ->
  check_dangerous rules (JStr c) s
  = match first_found rules c with
    | Some m =>
        (Exit 2, {| stdout := stdout s;
                    stderr := stderr s ++ m ++ newline;
                    files := files s |})
    | None => (Ret tt, s)
    end.
Proof.
  induction rules as [| [p m] rules IH]; simpl; intros H; [reflexivity |].
  apply andb_prop in H as [Hv H]. simpl in Hv.
  unfold bind at 1. rewrite re_search_found by assumption.
  destruct (found true p c); [reflexivity | now apply IH].
Qed.

(** The loop over the blocked table prints the block decision and exits
    0 at the first pattern that matches. *)
Lemma check_blocked_run (t : string) (patterns : list string) (s : io) :
  forallb valid patterns = true ->
  check_blocked patterns (JStr t) s
  = if existsb (fun pattern => matched pattern t) patterns
    then (Exit 0, {| stdout := stdout s
                                 ++ dumps (blocked_output (JStr t)) ++ newline;
                     stderr := stderr s;
                     files := files s |})
    else (Ret tt, s).
Proof.
  induction patterns as [| p patterns IH]; simpl; intros H; [reflexivity |].
  apply andb_prop in H as [Hv H].
  unfold bind at 1. rewrite re_match_matched by assumption.
  destruct (matched p t); simpl; [reflexivity | now apply IH].
Qed.

(** The loop over the rate limits never rejects. *)
Lemma check_rates_run (t : string) (limits : list (string * (nat * nat)))
      (s : io) :
  forallb (fun policy => valid (fst policy)) limits = true ->
  check_rates limits (JStr t) s = (Ret tt, s).
Proof.
  induction limits as [| [p [limit window]] limits IH]; simpl; intros H;
    [reflexivity |].
  apply andb_prop in H as [Hv H]. simpl in Hv.
  unfold bind at 1. unfold bind at 1. rewrite re_match_matched by assumption.
  unfold check_rate_limit. simpl negb.
  destruct (matched p t); unfold ret at 1; now apply IH.
Qed.

Lemma rate_patterns_valid :
  forallb (fun policy : string * (nat * nat) => valid (fst policy))
          RATE_LIMITS = true.
Proof. vm_compute. reflexivity. Qed.

(** A request that decodes to a dictionary: the script comes down to its
    two loops and the two file-system calls. *)
Lemma monitor_request (w : world) (tool_name tool_input : json) (s : io) :
  tool_call w = Some (tool_name, tool_input) ->
  McpMonitor.main w s
  = try_except
      (bind (check_blocked BLOCKED_MCP_TOOLS tool_name) (fun _ =>
       bind (check_rates RATE_LIMITS tool_name) (fun _ =>
       bind (on_files (makedirs (log_dir w))) (fun _ =>
       on_files (append_file (log_path w)
                   (dumps (log_entry w tool_name tool_input) ++ newline))))))
      hook_error s.
Proof.
  unfold tool_call, McpMonitor.main, try_except, load_stdin, loads_value.
  intros H.
  destruct (json_loads (stdin w)) as [[| | | | | d] |]; try discriminate.
  injection H as <- <-.
  unfold bind, get, ret.
  destruct (check_blocked BLOCKED_MCP_TOOLS
              (dict_get_or d "tool_name" (JStr EmptyString)) s)
    as [[[] | code | e] s1]; reflexivity.
Qed.

(** A blocked tool: the decision goes to standard output, the status is
    0, no file is touched. *)
Lemma monitor_blocks (w : world) (t : string) (tool_input : json)
      (fs : filesystem) :
  tool_call w = Some (JStr t, tool_input) ->
  blocked t = true ->
  McpMonitor.main w (start fs)
  = (Exit 0, {| stdout := dumps (blocked_output (JStr t)) ++ newline;
                stderr := EmptyString;
                files := fs |}).
Proof.
  intros Hw Hb. rewrite (monitor_request w _ _ _ Hw).
  unfold try_except, bind at 1.
  rewrite check_blocked_run by apply blocked_patterns_valid.
  unfold blocked in Hb. rewrite Hb. reflexivity.
Qed.

(** Any other tool: the run is the two file-system calls. *)
Lemma monitor_logs (w : world) (t : string) (tool_input : json)
      (fs : filesystem) :
  tool_call w = Some (JStr t, tool_input) ->
  blocked t = false ->
  McpMonitor.main w (start fs)
  = try_except
      (bind (on_files (makedirs (log_dir w))) (fun _ =>
       on_files (append_file (log_path w)
                   (dumps (log_entry w (JStr t) tool_input) ++ newline))))
      hook_error (start fs).
Proof.
  intros Hw Hb. rewrite (monitor_request w _ _ _ Hw).
  unfold try_except, bind at 1.
  rewrite check_blocked_run by apply blocked_patterns_valid.
  unfold blocked in Hb. rewrite Hb.
  unfold bind at 1. rewrite check_rates_run by apply rate_patterns_valid.
  reflexivity.
Qed.

End MonitorRuns.

Lemma append_file_done (path data : string) (fs fs' : filesystem) :
  append_file path data fs = (None, fs') ->
  fs' path = Some (File (content fs path ++ data))
  /\ forall q, String.eqb q path = false -> fs' q = fs q.
Proof.
  unfold append_file, content.
  destruct (fs path) as [[| old] |] eqn:E.
  - discriminate.
  - intros H. injection H as <-. unfold fs_set. rewrite String.eqb_refl.
    split; [reflexivity |]. now intros q ->.
  - assert (G : fs_set fs path (File data) path = Some (File (EmptyString ++ data))
                /\ forall q, String.eqb q path = false ->
                             fs_set fs path (File data) q = fs q).
    { unfold fs_set. rewrite String.eqb_refl.
      split; [reflexivity |]. now intros q ->. }
    destruct (last (map Some (parents path)) None) as [d |].
    + destruct (fs d) as [[| x] |]; intros H; try discriminate.
      now injection H as <-.
    + intros H. now injection H as <-.
Qed.

(** Making directories changes the text of no file. *)
Lemma mkdir_each_content (dirs : list string) :
  forall under_file fs made fs1,
    mkdir_each dirs under_file fs = (made, fs1) ->
    forall q, content fs1 q = content fs q.
Proof.
  induction dirs as [| d ds IH]; simpl; intros u fs made fs1 H q.
  - now injection H as <- <-.
  - destruct (fs d) as [[| text] |] eqn:E.
    + now apply IH with (q := q) in H.
    + destruct ds; [now injection H as <- <- | now apply IH with (q := q) in H].
    + destruct u; [now injection H as <- <- |].
      apply IH with (q := q) in H. rewrite H. unfold content, fs_set.
      destruct (String.eqb q d) eqn:Q; [| reflexivity].
      apply String.eqb_eq in Q. subst q. now rewrite E.
Qed.

Lemma makedirs_content (path : string) (fs fs1 : filesystem)
      (made : option exn) (q : string) :
  makedirs path fs = (made, fs1) -> content fs1 q = content fs q.
Proof. intros H. now apply mkdir_each_content with (q := q) in H. Qed.

(** C2, as the code has it.  A block by a dangerous-command rule writes
    the rule's message on the error stream and exits with status 2, which
    is neither 0 nor 1.  A block by a blocked-tool rule writes the object
    with decision [block] on standard output, nothing on the error
    stream, and exits with status 0. *)
Theorem block_signal_depends_on_hook {rt : Runtime} (w w' : world)
        (c m t : string) (tool_input : json) (fs : filesystem) :
  bash_command w = Some (JStr c) ->
  first_found DANGEROUS_PATTERNS c = Some m ->
  tool_call w' = Some (JStr t, tool_input) ->
  blocked t = true ->
  BashValidator.main w (start fs)
  = (Exit 2, {| stdout := EmptyString; stderr := m ++ newline; files := fs |})
  /\ exit_status (fst (BashValidator.main w (start fs))) = 2
  /\ 2 <> 0 /\ 2 <> 1
  /\ McpMonitor.main w' (start fs)
     = (Exit 0,
        {| stdout := dumps (JDict [ ("decision", JStr "block");
                                    ("reason",
                                     JStr ("Tool " ++ t
                                             ++ " is blocked by security policy")) ])
                       ++ newline;
           stderr := EmptyString;
           files := fs |})
  /\ exit_status (fst (McpMonitor.main w' (start fs))) = 0.
Proof.
  intros Hc Hm Ht Hb.
  assert (E : BashValidator.main w (start fs)
              = (Exit 2, {| stdout := EmptyString; stderr := m ++ newline;
                            files := fs |})).
  { unfold BashValidator.main. rewrite (validate_bash _ _ w (JStr c)) by assumption.
    unfold try_except, bind at 1.
    rewrite check_dangerous_first_found by apply dangerous_patterns_valid.
    rewrite Hm. reflexivity. }
  rewrite E. rewrite (monitor_blocks w' t tool_input fs Ht Hb).
  repeat split; auto.
Qed.

Lemma block_signal_depends_on_hook_witness :
  let w := Sample.at_noon (Sample.bash_request "bash" "dd if=img of=/dev/sdb") in
  let w' := Sample.at_noon (Sample.tool_request "mcp__aws__deploy_production"
                              (JDict [])) in
  exit_status (fst (BashValidator.main (rt := Concrete.runtime) w
                      (start Sample.empty_fs))) = 2
  /\ exit_status (fst (McpMonitor.main (rt := Concrete.runtime) w'
                         (start Sample.empty_fs))) = 0.
Proof.
  intros w w'.
  pose proof (block_signal_depends_on_hook (rt := Concrete.runtime) w w'
                "dd if=img of=/dev/sdb" "Direct disk write detected"
                "mcp__aws__deploy_production" (JDict []) Sample.empty_fs
                eq_refl eq_refl eq_refl eq_refl) as H.
  split; [exact (proj1 (proj2 H)) | exact (proj2 (proj2 (proj2 (proj2 (proj2 H)))))].
Defined.

(** C2 fails on the monitor: the blocked tool [mcp__github__delete_repo]
    gives exit status 0, not 2, and an empty error stream. *)
Lemma blocked_tool_exits_zero :
  let w := Sample.at_noon (Sample.tool_request "mcp__github__delete_repo"
                             (JDict [])) in
  let run := McpMonitor.main (rt := Concrete.runtime) w (start Sample.empty_fs) in
  blocked "mcp__github__delete_repo" = true
  /\ stdout (snd run)
     = dumps (blocked_output (JStr "mcp__github__delete_repo")) ++ newline
  /\ exit_status (fst run) = 0
  /\ exit_status (fst run) <> 2
  /\ stderr (snd run) = EmptyString.
Proof.
  vm_compute. repeat split; discriminate.
Qed.

(** The three ways the audit of a tool that is not blocked can go. *)
Lemma monitor_log_cases {rt : Runtime} (w : world) (t : string)
      (tool_input : json) (fs fs1 : filesystem) (made : option exn) :
  tool_call w = Some (JStr t, tool_input) ->
  blocked t = false ->
  makedirs (log_dir w) fs = (made, fs1) ->
  let line := dumps (log_entry w (JStr t) tool_input) ++ newline in
  (forall e,
      made = Some e ->
      McpMonitor.main w (start fs)
      = (Exit 1, {| stdout := EmptyString;
                    stderr := "Hook error: " ++ exn_str e ++ newline;
                    files := fs1 |}))
  /\ (forall e fs2,
         made = None ->
         append_file (log_path w) line fs1 = (Some e, fs2) ->
         McpMonitor.main w (start fs)
         = (Exit 1, {| stdout := EmptyString;
                       stderr := "Hook error: " ++ exn_str e ++ newline;
                       files := fs2 |}))
  /\ (forall fs2,
         made = None ->
         append_file (log_path w) line fs1 = (None, fs2) ->
         McpMonitor.main w (start fs)
         = (Ret tt, {| stdout := EmptyString; stderr := EmptyString;
                       files := fs2 |})).
Proof.
  intros Hw Hb Hm line. rewrite (monitor_logs w t tool_input fs Hw Hb).
  unfold try_except, bind, on_files, start. cbn [files stdout stderr].
  rewrite Hm.
  split; [| split].
  - intros e ->. reflexivity.
  - intros e fs2 -> Ha. cbn [files stdout stderr]. fold line. rewrite Ha.
    reflexivity.
  - intros fs2 -> Ha. cbn [files stdout stderr]. fold line. rewrite Ha.
    reflexivity.
Qed.

(** C3, as the code has it.  A tool that is not blocked, and a failure of
    either file-system call of the audit: the exception is reported on
    the error stream as a hook error, and the exit status is 1. *)
Theorem log_failure_is_a_hook_error {rt : Runtime} (w : world) (t : string)
        (tool_input : json) (fs fs1 : filesystem) (made : option exn) :
  tool_call w = Some (JStr t, tool_input) ->
  blocked t = false ->
  makedirs (log_dir w) fs = (made, fs1) ->
  let line := dumps (log_entry w (JStr t) tool_input) ++ newline in
  (forall e,
      made = Some e ->
      McpMonitor.main w (start fs)
      = (Exit 1, {| stdout := EmptyString;
                    stderr := "Hook error: " ++ exn_str e ++ newline;
                    files := fs1 |}))
  /\ (forall e fs2,
         made = None ->
         append_file (log_path w) line fs1 = (Some e, fs2) ->
         McpMonitor.main w (start fs)
         = (Exit 1, {| stdout := EmptyString;
                       stderr := "Hook error: " ++ exn_str e ++ newline;
                       files := fs2 |}))
  /\ (forall e, made = Some e ->
                exit_status (fst (McpMonitor.main w (start fs))) = 1).
Proof.
  intros Hw Hb Hm line.
  destruct (monitor_log_cases w t tool_input fs fs1 made Hw Hb Hm)
    as (H1 & H2 & _).
  split; [exact H1 |]. split; [exact H2 |].
  intros e He. now rewrite (H1 e He).
Qed.

Lemma log_failure_is_a_hook_error_witness :
  let w := Sample.at_noon (Sample.tool_request "mcp__files__read" (JDict [])) in
  exit_status (fst (McpMonitor.main (rt := Concrete.runtime) w
                      (start Sample.blocked_fs))) = 1.
Proof.
  intros w.
  pose proof (log_failure_is_a_hook_error (rt := Concrete.runtime) w
                "mcp__files__read" (JDict []) Sample.blocked_fs
                Sample.blocked_fs
                (Some (OSError "NotADirectoryError" "/home/dev/.config/mcphost"))
                eq_refl eq_refl eq_refl) as H.
  now rewrite (proj1 H _ eq_refl).
Defined.

(** C3 fails: the same request is approved (status 0) where the log can
    be written and ends in status 1 where a regular file sits at
    [~/.config]. *)
Lemma audit_failure_changes_the_status :
  let w := Sample.at_noon (Sample.tool_request "mcp__files__read" (JDict [])) in
  let fine := McpMonitor.main (rt := Concrete.runtime) w (start Sample.empty_fs) in
  let failing := McpMonitor.main (rt := Concrete.runtime) w (start Sample.blocked_fs) in
  exit_status (fst fine) = 0
  /\ makedirs (log_dir w) Sample.blocked_fs
     = (Some (OSError "NotADirectoryError" "/home/dev/.config/mcphost"),
        Sample.blocked_fs)
  /\ exit_status (fst failing) = 1
  /\ exit_status (fst failing) <> 0
  /\ stderr (snd failing)
     = "Hook error: [Errno 20] Not a directory: '/home/dev/.config/mcphost'"
         ++ newline.
Proof.
  vm_compute. repeat split; discriminate.
Qed.

(** C4, as the code has it.  A tool that is not blocked, the log being
    writable: one line is appended to what the log held, the encoding of
    the record
    with the three fields [timestamp], [tool] and [input] and no verdict,
    and the status is 0 with nothing printed.  A blocked tool leaves every
    file as it was. *)
Theorem usage_is_logged_unless_blocked {rt : Runtime} (w : world)
        (t : string) (tool_input : json) (fs : filesystem) :
  tool_call w = Some (JStr t, tool_input) ->
  let line :=
    dumps (JDict [ ("timestamp", JStr (now_isoformat w));
                   ("tool", JStr t);
                   ("input", tool_input) ]) ++ newline in
  (blocked t = false ->
   forall fs1 fs2,
     makedirs (log_dir w) fs = (None, fs1) ->
     append_file (log_path w) line fs1 = (None, fs2) ->
     McpMonitor.main w (start fs)
     = (Ret tt, {| stdout := EmptyString; stderr := EmptyString; files := fs2 |})
     /\ fs2 (log_path w) = Some (File (content fs (log_path w) ++ line))
     /\ forall q, String.eqb q (log_path w) = false ->
                  content fs2 q = content fs q)
  /\ (blocked t = true ->
      files (snd (McpMonitor.main w (start fs))) = fs).
Proof.
  intros Hw line. split.
  - intros Hb fs1 fs2 Hm Ha.
    destruct (monitor_log_cases w t tool_input fs fs1 None Hw Hb Hm)
      as (_ & _ & H).
    split; [now apply H |].
    destruct (append_file_done _ _ _ _ Ha) as (F & G).
    rewrite (makedirs_content _ _ _ _ (log_path w) Hm) in F.
    split; [exact F |].
    intros q Hq. unfold content at 1. rewrite (G q Hq).
    fold (content fs1 q). now apply makedirs_content with (q := q) in Hm.
  - intros Hb. now rewrite (monitor_blocks w t tool_input fs Hw Hb).
Qed.

Lemma usage_is_logged_unless_blocked_witness :
  let w := Sample.at_noon (Sample.tool_request "mcp__files__read"
                             (JDict [ ("path", JStr "notes.txt") ])) in
  content (files (snd (McpMonitor.main (rt := Concrete.runtime) w
                         (start Sample.empty_fs)))) (log_path w)
  = dumps (JDict [ ("timestamp", JStr "2025-03-01T12:00:00.000000");
                   ("tool", JStr "mcp__files__read");
                   ("input", JDict [ ("path", JStr "notes.txt") ]) ])
      ++ newline.
Proof.
  intros w.
  pose proof (usage_is_logged_unless_blocked (rt := Concrete.runtime) w
                "mcp__files__read" (JDict [ ("path", JStr "notes.txt") ])
                Sample.empty_fs eq_refl) as [H _].
  destruct (H eq_refl _ _ eq_refl eq_refl) as (E & F & _).
  rewrite E. cbn [snd files]. unfold content. rewrite F. reflexivity.
Defined.

(** C4 fails: the blocked call [mcp__github__delete_repo] leaves the log
    without any record. *)
Lemma blocked_call_is_not_logged :
  let w := Sample.at_noon (Sample.tool_request "mcp__github__delete_repo"
                             (JDict [])) in
  let run := McpMonitor.main (rt := Concrete.runtime) w (start Sample.empty_fs) in
  blocked "mcp__github__delete_repo" = true
  /\ exit_status (fst run) = 0
  /\ files (snd run) (log_path w) = None
  /\ log_path w = "/home/dev/.config/mcphost/logs/mcp-usage.jsonl".
Proof.
  vm_compute. repeat split.
Qed.

(** A tool name under a rate-limit policy is not a blocked one. *)
Lemma rate_limited_not_blocked (t : string) :
  rate_limited t = true -> blocked t = false.
Proof.
  unfold rate_limited, RATE_LIMITS, matched. cbn [existsb fst].
  change (Re.compile "mcp__openai__.*")
    with (Some (literally "mcp__openai__" ++ [Re.Star Re.Any])%list).
  rewrite orb_false_r. unfold Re.matches. intros H.
  apply match_literally in H as (rest & -> & _).
  vm_compute. reflexivity.
Qed.

(** C1, as the code has it.  [check_rate_limit] answers [True] to every
    question; so in any succession of calls to tools under a rate-limit
    policy, whatever their number and their times, no call is rejected:
    each run prints nothing on standard output and ends with status 0,
    or with status 1 when its log could not be written. *)
Theorem rate_limits_never_reject {rt : Runtime} (calls : list world) :
  forallb (fun w =>
             match tool_call w with
             | Some (JStr t, _) => rate_limited t
             | _ => false
             end) calls = true ->
  (forall tool_name limits, check_rate_limit tool_name limits = true)
  /\ forall fs,
      Forall (fun run => stdout (snd run) = EmptyString
                         /\ (fst run = 0 \/ fst run = 1))
             (run_calls calls fs).
Proof.
  intros H. split; [reflexivity |].
  induction calls as [| w calls IH]; intros fs; simpl; [constructor |].
  simpl in H. apply andb_prop in H as [Hw H].
  destruct (tool_call w) as [[tn ti] |] eqn:Ew; [| discriminate].
  destruct tn as [| | | t | |]; try discriminate.
  apply rate_limited_not_blocked in Hw.
  destruct (makedirs (log_dir w) fs) as [made fs1] eqn:Em.
  destruct (monitor_log_cases w t ti fs fs1 made Ew Hw Em) as (H1 & H2 & H3).
  destruct made as [e |].
  - rewrite (H1 e eq_refl). constructor; [simpl; auto | now apply IH].
  - destruct (append_file (log_path w)
                (dumps (log_entry w (JStr t) ti) ++ newline) fs1)
      as [[e |] fs2] eqn:Ea.
    + rewrite (H2 e fs2 eq_refl eq_refl).
      constructor; [simpl; auto | now apply IH].
    + rewrite (H3 fs2 eq_refl eq_refl).
      constructor; [simpl; auto | now apply IH].
Qed.

Lemma rate_limits_never_reject_witness :
  let w := Sample.at_noon (Sample.tool_request "mcp__openai__chat" (JDict [])) in
  Forall (fun run => stdout (snd run) = EmptyString
                     /\ (fst run = 0 \/ fst run = 1))
         (run_calls (rt := Concrete.runtime) (repeat w 12) Sample.empty_fs).
Proof.
  intros w.
  exact (proj2 (rate_limits_never_reject (rt := Concrete.runtime)
                  (repeat w 12) eq_refl) Sample.empty_fs).
Defined.

(** C1 fails: of eleven calls in a row, at the same time, to a tool under
    the policy of 10 calls per 60 seconds, the eleventh is allowed like
    the first ten; it is logged and nothing is printed. *)
Lemma eleventh_call_is_allowed :
  let w := Sample.at_noon (Sample.tool_request "mcp__openai__chat" (JDict [])) in
  let runs := run_calls (rt := Concrete.runtime) (repeat w 11) Sample.empty_fs in
  RATE_LIMITS = [ ("mcp__openai__.*", (10, 60)) ]
  /\ rate_limited "mcp__openai__chat" = true
  /\ map (fun run => (fst run, stdout (snd run), stderr (snd run))) runs
     = repeat (0, EmptyString, EmptyString) 11
  /\ nth 10 (map (fun run => stdout (snd run)) runs) "none"
     <> dumps (rate_output 10 60) ++ newline.
Proof.
  vm_compute. repeat split. discriminate.
Qed.

(** ** The JSON codec: decoding what was encoded *)

Lemma json_induction (P : json -> Prop) :
  P JNull ->
  (forall b, P (JBool b)) ->
  (forall n, P (JInt n)) ->
  (forall s, P (JStr s)) ->
  (forall l, Forall P l -> P (JList l)) ->
  (forall d, Forall (fun kv => P (snd kv)) d -> P (JDict d)) ->
  forall v, P v.
Proof.
  intros Hnull Hbool Hint Hstr Hlist Hdict. fix IH 1.
  intros [| b | n | s | l | d].
  - exact Hnull.
  - apply Hbool.
  - apply Hint.
  - apply Hstr.
  - apply Hlist. induction l as [| x l IHl]; constructor; [apply IH | exact IHl].
  - apply Hdict. induction d as [| [k x] d IHd]; constructor;
      [apply IH | exact IHd].
Qed.

Lemma append_assoc (a b c : string) : (a ++ b) ++ c = a ++ (b ++ c).
Proof. induction a as [| x a IH]; simpl; [reflexivity | now rewrite IH]. Qed.

Lemma append_empty (a : string) : a ++ EmptyString = a.
Proof. induction a as [| x a IH]; simpl; [reflexivity | now rewrite IH]. Qed.

Lemma length_append (a b : string) :
  String.length (a ++ b) = String.length a + String.length b.
Proof. induction a as [| x a IH]; simpl; [reflexivity | now rewrite IH]. Qed.

(** *** Strings *)

Lemma scan_escape_char (c : ascii) (tail : string) :
  scan_string (escape_char c ++ tail) = prepend c (scan_string tail).
Proof.
  destruct c as [[] [] [] [] [] [] [] []]; reflexivity.
Qed.

Lemma scan_string_escape (s rest : string) :
  scan_string (escape s ++ String dquote rest) = Some (s, rest).
Proof.
  induction s as [| c s IH]; simpl; [reflexivity |].
  rewrite append_assoc, scan_escape_char, IH. reflexivity.
Qed.


(** *** Integers *)

Lemma take_digits_uint (u : Decimal.uint) (rest : string) :
  starts_with_digit rest = false ->
  take_digits (NilEmpty.string_of_uint u ++ rest)
  = (NilEmpty.string_of_uint u, rest).
Proof.
  intros H. induction u; simpl; try (rewrite IHu; reflexivity).
  destruct rest as [| c rest]; simpl in *; [reflexivity | now rewrite H].
Qed.

Lemma digits_value_uint (u : Decimal.uint) :
  digits_value (NilEmpty.string_of_uint u) = Some (Z.of_uint u).
Proof. unfold digits_value. now rewrite NilEmpty.usu. Qed.

Lemma to_uint_head (p : positive) :
  match Pos.to_uint p with
  | Decimal.Nil | Decimal.D0 _ => False
  | _ => True
  end.
Proof.
  pose proof (DecimalPos.Unsigned.to_of (Pos.to_uint p)) as E.
  rewrite DecimalPos.Unsigned.of_to in E. simpl in E.
  pose proof (DecimalPos.Unsigned.to_uint_nonzero p) as Z.
  pose proof (DecimalPos.Unsigned.to_uint_nonnil p) as N.
  destruct (Pos.to_uint p) as [| u | u | u | u | u | u | u | u | u | u] eqn:Eu;
    try exact I; [now elim N |].
  rewrite DecimalFacts.unorm_D0 in E.
  assert (F : Decimal.nzhead u = Decimal.D0 u).
  { unfold Decimal.unorm in E.
    destruct (Decimal.nzhead u) eqn:En; try discriminate E.
    - now elim Z.
    - now injection E as <-. }
  now apply DecimalFacts.nzhead_nonzero in F.
Qed.

Lemma of_to_uint (p : positive) : Z.of_uint (Pos.to_uint p) = Z.pos p.
Proof.
  unfold Z.of_uint. now rewrite DecimalPos.Unsigned.of_to.
Qed.

Lemma scan_natural_pos (p : positive) (rest : string) :
  terminator rest = true ->
  scan_natural (NilEmpty.string_of_uint (Pos.to_uint p) ++ rest)
  = Some (Z.pos p, rest).
Proof.
  unfold terminator. intros H. apply andb_prop in H as [Hd Hf].
  apply negb_true_iff in Hd. apply negb_true_iff in Hf.
  pose proof (to_uint_head p) as Hh. pose proof (of_to_uint p) as Hv.
  pose proof (take_digits_uint (Pos.to_uint p) rest Hd) as Ht.
  pose proof (digits_value_uint (Pos.to_uint p)) as Hg.
  unfold scan_natural.
  destruct (Pos.to_uint p) as [| u | u | u | u | u | u | u | u | u | u];
    try (now elim Hh);
    cbn [NilEmpty.string_of_uint append eat Ascii.eqb Bool.eqb];
    cbn [NilEmpty.string_of_uint append] in Ht, Hg; rewrite Ht, Hf, Hg, Hv;
    reflexivity.
Qed.

Lemma scan_int_encode (n : Z) (rest : string) :
  terminator rest = true ->
  scan_int (encode_int n ++ rest) = Some (n, rest).
Proof.
  intros H. unfold encode_int. destruct n as [| p | p]; simpl Z.to_int.
  - unfold terminator in H. apply andb_prop in H as [_ Hf].
    apply negb_true_iff in Hf.
    cbn. rewrite Hf. reflexivity.
  - pose proof (to_uint_head p) as Hh.
    pose proof (scan_natural_pos p rest H) as Hs.
    unfold scan_int. cbn [NilEmpty.string_of_int].
    destruct (Pos.to_uint p) as [| u | u | u | u | u | u | u | u | u | u];
      try (now elim Hh); exact Hs.
  - unfold scan_int. cbn [NilEmpty.string_of_int append eat].
    rewrite Ascii.eqb_refl. now rewrite scan_natural_pos.
Qed.

Lemma encode_int_start (n : Z) :
  exists c s, encode_int n = String c s /\ number_start c = true.
Proof.
  unfold encode_int. destruct n as [| p | p]; simpl Z.to_int.
  - now exists "0"%char, EmptyString.
  - pose proof (to_uint_head p) as Hh. cbn [NilEmpty.string_of_int].
    destruct (Pos.to_uint p) as [| u | u | u | u | u | u | u | u | u | u];
      try (now elim Hh); cbn [NilEmpty.string_of_uint];
      eexists; eexists; split; reflexivity.
  - cbn [NilEmpty.string_of_int]. eexists; eexists; split; reflexivity.
Qed.

(** *** How an encoded value starts *)

Lemma parse_value_number (fuel : nat) (c : ascii) (tail : string) :
  number_start c = true ->
  parse_value (S fuel) (String c tail)
  = match scan_int (String c tail) with
    | Some (n, r) => Some (JInt n, r)
    | None => None
    end.
Proof.
  destruct c as [[] [] [] [] [] [] [] []]; intros H; try discriminate H;
    reflexivity.
Qed.

Lemma value_start_facts (c : ascii) :
  value_start c = true ->
  is_ws c = false /\ Ascii.eqb c "]" = false /\ Ascii.eqb c "}" = false.
Proof.
  intros H.
  assert (G : (negb (value_start c)
               || (negb (is_ws c) && negb (Ascii.eqb c "]")
                   && negb (Ascii.eqb c "}"))) = true).
  { apply (by_enumeration
             (fun c => negb (value_start c)
                       || (negb (is_ws c) && negb (Ascii.eqb c "]")
                           && negb (Ascii.eqb c "}")))).
    vm_compute. reflexivity. }
  rewrite H in G. simpl in G.
  apply andb_prop in G as [G G3]. apply andb_prop in G as [G1 G2].
  now rewrite !negb_true_iff in *.
Qed.

Lemma number_start_value (c : ascii) :
  number_start c = true -> value_start c = true.
Proof. unfold value_start. now intros ->. Qed.

Lemma dumps_start (v : json) :
  exists c s, dumps v = String c s /\ value_start c = true.
Proof.
  destruct v as [| [] | n | s | l | d]; simpl;
    try (eexists; eexists; split; reflexivity).
  destruct (encode_int_start n) as (c & s & -> & H).
  exists c, s. split; [reflexivity | now apply number_start_value].
Qed.

Lemma skip_ws_dumps (v : json) (rest : string) :
  skip_ws (dumps v ++ rest) = dumps v ++ rest.
Proof.
  destruct (dumps_start v) as (c & s & -> & H).
  apply value_start_facts in H as (H & _). simpl. now rewrite H.
Qed.

Lemma eat_dumps (v : json) (rest : string) (c : ascii) :
  c = "]"%char \/ c = "}"%char ->
  eat c (dumps v ++ rest) = None.
Proof.
  destruct (dumps_start v) as (x & s & -> & H).
  apply value_start_facts in H as (_ & H1 & H2).
  intros [-> | ->]; simpl; [now rewrite H1 | now rewrite H2].
Qed.

Lemma encode_string_then (k tail : string) :
  encode_string k ++ tail = String dquote (escape k ++ String dquote tail).
Proof.
  unfold encode_string, quoted. simpl. now rewrite append_assoc.
Qed.

(** *** Dictionaries without repeated keys *)

Lemma dict_set_new (d : list (string * json)) (k : string) (v : json) :
  existsb (String.eqb k) (map fst d) = false ->
  dict_set d k v = (d ++ [(k, v)])%list.
Proof.
  induction d as [| [k' x] d IH]; simpl; intros H; [reflexivity |].
  apply orb_false_elim in H as [H1 H2].
  rewrite String.eqb_sym, H1. now rewrite IH.
Qed.

Lemma dict_of_pairs_from (d acc : list (string * json)) :
  keys_unique (map fst d) = true ->
  forallb (fun k => negb (existsb (String.eqb k) (map fst acc))) (map fst d)
  = true ->
  fold_left (fun a kv => dict_set a (fst kv) (snd kv)) d acc = (acc ++ d)%list.
Proof.
  revert acc. induction d as [| [k x] d IH]; simpl; intros acc Hu Hd.
  - now rewrite app_nil_r.
  - apply andb_prop in Hu as [Hk Hu]. apply andb_prop in Hd as [Ha Hd].
    apply negb_true_iff in Hk. apply negb_true_iff in Ha.
    rewrite dict_set_new by assumption.
    rewrite IH; [now rewrite <- app_assoc | assumption |].
    rewrite forallb_forall in Hd. apply forallb_forall. intros k' Hin.
    specialize (Hd k' Hin). apply negb_true_iff in Hd.
    apply negb_true_iff. rewrite map_app, existsb_app, Hd. simpl.
    rewrite orb_false_r. destruct (String.eqb k' k) eqn:E; [| reflexivity].
    apply String.eqb_eq in E. subst k'.
    assert (X : existsb (String.eqb k) (map fst d) = true).
    { apply existsb_exists. exists k. split; [assumption | apply String.eqb_refl]. }
    congruence.
Qed.

Lemma dict_of_pairs_unique (d : list (string * json)) :
  keys_unique (map fst d) = true -> dict_of_pairs d = d.
Proof.
  intros H. unfold dict_of_pairs. rewrite dict_of_pairs_from; auto.
  apply forallb_forall. reflexivity.
Qed.

(** *** Values *)

Lemma dumps_list (l : list json) :
  dumps (JList l) = "[" ++ dumps_items l ++ "]".
Proof. reflexivity. Qed.

Lemma dumps_dict (d : list (string * json)) :
  dumps (JDict d) = "{" ++ dumps_members d ++ "}".
Proof. reflexivity. Qed.

Lemma skip_ws_items (l : list json) (rest : string) :
  l <> [] ->
  skip_ws (dumps_items l ++ rest) = dumps_items l ++ rest.
Proof.
  destruct l as [| x [| y l]]; intros N; [now elim N | |].
  - apply skip_ws_dumps.
  - change (dumps_items (x :: y :: l))
      with (dumps x ++ ", " ++ dumps_items (y :: l)).
    rewrite append_assoc. apply skip_ws_dumps.
Qed.

Lemma after_last_item (A : Type) (x : A) (rest : string) :
  match eat "]" (skip_ws (String "]" rest)) with
  | Some r' => Some (x, r')
  | None => None
  end = Some (x, rest).
Proof. reflexivity. Qed.

Lemma parse_items_dumps (l : list json) :
  l <> [] ->
  Forall decodes l ->
  forallb wf l = true ->
  forall fuel rest,
    fold_right (fun x n => S (need x + n)) 0 l <= fuel ->
    parse_items fuel (dumps_items l ++ String "]" rest) = Some (l, rest).
Proof.
  induction l as [| x l IH]; intros N F W fuel rest Hf; [now elim N |].
  inversion F as [| ? ? Px Fl]; subst.
  simpl in W. apply andb_prop in W as [Wx Wl].
  cbn [fold_right] in Hf.
  destruct fuel as [| fuel]; [lia |]. cbn [parse_items].
  destruct l as [| y l].
  - cbn [dumps_items]. rewrite (Px Wx) by (try lia; reflexivity).
    reflexivity.
  - change (dumps_items (x :: y :: l))
      with (dumps x ++ ", " ++ dumps_items (y :: l)).
    rewrite !append_assoc. rewrite (Px Wx) by (try lia; reflexivity).
    assert (K : skip_ws (dumps_items (y :: l) ++ String "]" rest)
                = dumps_items (y :: l) ++ String "]" rest)
      by (apply skip_ws_items; discriminate).
    assert (R : parse_items fuel (dumps_items (y :: l) ++ String "]" rest)
                = Some (y :: l, rest))
      by (apply IH; try assumption; [discriminate | lia]).
    revert K R.
    generalize (dumps_items (y :: l) ++ String "]" rest). intros tail K R.
    change (skip_ws (", " ++ tail)) with (String "," (String " " tail)).
    cbn [eat]. change (Ascii.eqb "," "]") with false.
    change (Ascii.eqb "," ",") with true. cbv iota.
    change (skip_ws (String " " tail)) with (skip_ws tail).
    now rewrite K, R.
Qed.

Lemma parse_members_dumps (d : list (string * json)) :
  d <> [] ->
  Forall (fun kv => decodes (snd kv)) d ->
  forallb (fun kv => match kv with (_, x) => wf x end) d = true ->
  forall fuel rest,
    fold_right (fun kv n => match kv with (_, x) => S (need x + n) end) 0 d
    <= fuel ->
    parse_members fuel (dumps_members d ++ String "}" rest) = Some (d, rest).
Proof.
  induction d as [| [k x] d IH]; intros N F W fuel rest Hf; [now elim N |].
  inversion F as [| ? ? Px Fl]; subst. simpl in Px.
  simpl in W. apply andb_prop in W as [Wx Wl].
  cbn [fold_right] in Hf.
  destruct fuel as [| fuel]; [lia |]. cbn [parse_members].
  destruct d as [| [k' y] d].
  - cbn [dumps_members]. rewrite append_assoc, encode_string_then.
    cbn [eat]. rewrite Ascii.eqb_refl. rewrite scan_string_escape.
    rewrite append_assoc.
    change (skip_ws (": " ++ dumps x ++ String "}" rest))
      with (String ":" (String " " (dumps x ++ String "}" rest))).
    cbn [eat]. rewrite Ascii.eqb_refl.
    change (skip_ws (String " " (dumps x ++ String "}" rest)))
      with (skip_ws (dumps x ++ String "}" rest)).
    rewrite skip_ws_dumps. rewrite (Px Wx) by (try lia; reflexivity).
    reflexivity.
  - change (dumps_members ((k, x) :: (k', y) :: d))
      with (encode_string k ++ ": " ++ dumps x ++ ", "
              ++ dumps_members ((k', y) :: d)).
    rewrite !append_assoc, encode_string_then.
    cbn [eat]. rewrite Ascii.eqb_refl. rewrite scan_string_escape.
    assert (K : skip_ws (dumps_members ((k', y) :: d) ++ String "}" rest)
                = dumps_members ((k', y) :: d) ++ String "}" rest).
    { destruct d as [| [k'' z] d].
      - cbn [dumps_members]. rewrite append_assoc, encode_string_then.
        reflexivity.
      - change (dumps_members ((k', y) :: (k'', z) :: d))
          with (encode_string k' ++ ": " ++ dumps y ++ ", "
                  ++ dumps_members ((k'', z) :: d)).
        rewrite append_assoc, encode_string_then. reflexivity. }
    assert (R : parse_members fuel
                  (dumps_members ((k', y) :: d) ++ String "}" rest)
                = Some ((k', y) :: d, rest))
      by (apply IH; try assumption; [discriminate | lia]).
    revert K R.
    generalize (dumps_members ((k', y) :: d) ++ String "}" rest).
    intros tail K R.
    change (skip_ws (": " ++ dumps x ++ ", " ++ tail))
      with (String ":" (String " " (dumps x ++ ", " ++ tail))).
    cbn [eat]. rewrite Ascii.eqb_refl.
    change (skip_ws (String " " (dumps x ++ ", " ++ tail)))
      with (skip_ws (dumps x ++ ", " ++ tail)).
    rewrite skip_ws_dumps. rewrite (Px Wx) by (try lia; reflexivity).
    change (skip_ws (", " ++ tail)) with (String "," (String " " tail)).
    cbn [eat]. change (Ascii.eqb "," "}") with false.
    change (Ascii.eqb "," ",") with true. cbv iota.
    change (skip_ws (String " " tail)) with (skip_ws tail).
    now rewrite K, R.
Qed.

Lemma decodes_every (v : json) : decodes v.
Proof.
  induction v as [| b | n | s | l IH | d IH] using json_induction;
    intros W fuel rest Hf Ht;
    (destruct fuel as [| fuel]; [simpl in Hf; lia |]).
  - reflexivity.
  - destruct b; reflexivity.
  - destruct (encode_int_start n) as (c & s & E & Hc).
    cbn [dumps]. pose proof (scan_int_encode n rest Ht) as Hs.
    rewrite E in *. cbn [append] in *.
    rewrite parse_value_number by assumption. now rewrite Hs.
  - cbn [dumps]. rewrite encode_string_then. cbn [parse_value].
    rewrite Ascii.eqb_refl. now rewrite scan_string_escape.
  - rewrite dumps_list. cbn [need] in Hf. simpl in W.
    change (("[" ++ dumps_items l ++ "]") ++ rest)
      with (String "[" ((dumps_items l ++ "]") ++ rest)).
    rewrite append_assoc. cbn [parse_value].
    change (Ascii.eqb "[" dquote) with false.
    change (Ascii.eqb "[" "{") with false.
    change (Ascii.eqb "[" "[") with true. cbv iota.
    destruct l as [| x l]; [reflexivity |].
    rewrite skip_ws_items by discriminate.
    assert (E : eat "]" (dumps_items (x :: l) ++ "]" ++ rest) = None).
    { destruct l as [| y l].
      - apply eat_dumps. now left.
      - change (dumps_items (x :: y :: l))
          with (dumps x ++ ", " ++ dumps_items (y :: l)).
        rewrite append_assoc. apply eat_dumps. now left. }
    rewrite E.
    change ("]" ++ rest) with (String "]" rest).
    rewrite parse_items_dumps; try assumption;
      [reflexivity | discriminate | lia].
  - rewrite dumps_dict. cbn [need] in Hf. simpl in W.
    apply andb_prop in W as [Wk W].
    change (("{" ++ dumps_members d ++ "}") ++ rest)
      with (String "{" ((dumps_members d ++ "}") ++ rest)).
    rewrite append_assoc. cbn [parse_value].
    change (Ascii.eqb "{" dquote) with false.
    change (Ascii.eqb "{" "{") with true. cbv iota.
    destruct d as [| [k x] d]; [reflexivity |].
    assert (E : dumps_members ((k, x) :: d) ++ "}" ++ rest
                = String dquote
                    (escape k ++ String dquote
                       (match d with
                        | [] => ": " ++ dumps x
                        | _ => ": " ++ dumps x ++ ", " ++ dumps_members d
                        end ++ "}" ++ rest))).
    { destruct d as [| [k' y] d].
      - cbn [dumps_members]. now rewrite append_assoc, encode_string_then.
      - change (dumps_members ((k, x) :: (k', y) :: d))
          with (encode_string k ++ ": " ++ dumps x ++ ", "
                  ++ dumps_members ((k', y) :: d)).
        now rewrite append_assoc, encode_string_then. }
    assert (K : skip_ws (dumps_members ((k, x) :: d) ++ "}" ++ rest)
                = dumps_members ((k, x) :: d) ++ "}" ++ rest)
      by (rewrite E; reflexivity).
    assert (T : eat "}" (dumps_members ((k, x) :: d) ++ "}" ++ rest) = None)
      by (rewrite E; reflexivity).
    rewrite K, T. change ("}" ++ rest) with (String "}" rest).
    rewrite parse_members_dumps; try assumption; [| discriminate | lia].
    now rewrite dict_of_pairs_unique.
Qed.

(** *** Whole documents *)

Lemma need_bound (v : json) : need v <= 2 * String.length (dumps v).
Proof.
  induction v as [| b | n | s | l IH | d IH] using json_induction.
  - simpl. lia.
  - destruct b; simpl; lia.
  - destruct (encode_int_start n) as (c & s & E & _).
    cbn [dumps need]. rewrite E. simpl. lia.
  - cbn [dumps need]. unfold encode_string, quoted. simpl. lia.
  - rewrite dumps_list. cbn [need]. simpl String.length.
    rewrite length_append. simpl String.length.
    assert (B : fold_right (fun x n => S (need x + n)) 0 l
                <= 2 * String.length (dumps_items l) + 2).
    { induction IH as [| x l Hx Hl IHl]; [simpl; lia |].
      cbn [fold_right]. destruct l as [| y l].
      - cbn [dumps_items fold_right]. lia.
      - change (dumps_items (x :: y :: l))
          with (dumps x ++ ", " ++ dumps_items (y :: l)).
        revert IHl. generalize (dumps_items (y :: l)).
        generalize (fold_right (fun x n => S (need x + n)) 0 (y :: l)).
        intros m it IHl. rewrite !length_append. simpl String.length. lia. }
    lia.
  - rewrite dumps_dict. cbn [need]. simpl String.length.
    rewrite length_append. simpl String.length.
    assert (B : fold_right
                  (fun kv n => match kv with (_, x) => S (need x + n) end) 0 d
                <= 2 * String.length (dumps_members d) + 2).
    { induction IH as [| [k x] d Hx Hd IHd]; [simpl; lia |].
      simpl in Hx. cbn [fold_right]. destruct d as [| [k' y] d].
      - cbn [dumps_members fold_right]. rewrite !length_append. lia.
      - change (dumps_members ((k, x) :: (k', y) :: d))
          with (encode_string k ++ ": " ++ dumps x ++ ", "
                  ++ dumps_members ((k', y) :: d)).
        revert IHd. generalize (dumps_members ((k', y) :: d)).
        generalize (fold_right
                      (fun kv n => match kv with (_, x) => S (need x + n) end)
                      0 ((k', y) :: d)).
        intros m it IHd. rewrite !length_append. simpl String.length. lia. }
    lia.
Qed.

(** Decoding an encoded value, followed by white space or nothing, gives
    the value back. *)
Lemma loads_dumps (v : json) (trailing : string) :
  wf v = true ->
  every is_ws trailing = true ->
  loads (dumps v ++ trailing) = Some v.
Proof.
  intros W T. unfold loads. rewrite skip_ws_dumps.
  rewrite decodes_every; try assumption.
  - assert (S : skip_ws trailing = EmptyString).
    { induction trailing as [| c t IH]; [reflexivity |].
      simpl in T. apply andb_prop in T as [Tc T]. simpl. rewrite Tc. auto. }
    now rewrite S.
  - rewrite length_append. pose proof (need_bound v). lia.
  - destruct trailing as [| c t]; [reflexivity |].
    simpl in T. apply andb_prop in T as [Tc _].
    assert (G : (negb (is_ws c)
                 || (negb (Chr.isdigit c) && negb (Ascii.eqb c ".")
                     && negb (Ascii.eqb c "e" || Ascii.eqb c "E"))) = true).
    { apply (by_enumeration
               (fun c => negb (is_ws c)
                         || (negb (Chr.isdigit c) && negb (Ascii.eqb c ".")
                             && negb (Ascii.eqb c "e" || Ascii.eqb c "E")))).
      vm_compute. reflexivity. }
    rewrite Tc in G. simpl in G.
    apply andb_prop in G as [G G3]. apply andb_prop in G as [G1 G2].
    rewrite negb_true_iff in *.
    unfold terminator. simpl. now rewrite G1, G2, G3.
Qed.

(** *** An encoded value is one line *)

Lemma every_append (f : ascii -> bool) (a b : string) :
  every f (a ++ b) = every f a && every f b.
Proof.
  induction a as [| c a IH]; simpl; [reflexivity |].
  now rewrite IH, andb_assoc.
Qed.

Lemma one_line_escape (s : string) : one_line (escape s) = true.
Proof.
  unfold one_line. induction s as [| c s IH]; simpl; [reflexivity |].
  rewrite every_append, IH, andb_true_r.
  apply (by_enumeration
           (fun c => every (fun x => negb (Chr.code_is 10 x)) (escape_char c))).
  vm_compute. reflexivity.
Qed.

Lemma one_line_encode_string (s : string) : one_line (encode_string s) = true.
Proof.
  unfold encode_string, quoted, one_line. simpl.
  rewrite every_append. fold (one_line (escape s)).
  now rewrite one_line_escape.
Qed.

Lemma one_line_uint (u : Decimal.uint) :
  one_line (NilEmpty.string_of_uint u) = true.
Proof. unfold one_line. induction u; simpl; auto. Qed.

Lemma one_line_encode_int (n : Z) : one_line (encode_int n) = true.
Proof.
  unfold encode_int. destruct n; simpl Z.to_int; cbn [NilEmpty.string_of_int].
  - reflexivity.
  - apply one_line_uint.
  - unfold one_line. simpl. apply one_line_uint.
Qed.

Lemma one_line_append (a b : string) :
  one_line a = true -> one_line b = true -> one_line (a ++ b) = true.
Proof. unfold one_line. intros Ha Hb. now rewrite every_append, Ha, Hb. Qed.

Lemma one_line_dumps (v : json) : one_line (dumps v) = true.
Proof.
  induction v as [| b | n | s | l IH | d IH] using json_induction.
  - reflexivity.
  - destruct b; reflexivity.
  - apply one_line_encode_int.
  - apply one_line_encode_string.
  - rewrite dumps_list.
    assert (B : one_line (dumps_items l) = true).
    { induction IH as [| x l Hx Hl IHl]; [reflexivity |].
      destruct l as [| y l]; [exact Hx |].
      change (dumps_items (x :: y :: l))
        with (dumps x ++ ", " ++ dumps_items (y :: l)).
      apply one_line_append; [exact Hx |].
      apply one_line_append; [reflexivity | exact IHl]. }
    apply one_line_append; [reflexivity |].
    apply one_line_append; [exact B | reflexivity].
  - rewrite dumps_dict.
    assert (B : one_line (dumps_members d) = true).
    { induction IH as [| [k x] d Hx Hd IHd]; [reflexivity |].
      simpl in Hx. destruct d as [| [k' y] d].
      - cbn [dumps_members].
        apply one_line_append; [apply one_line_encode_string |].
        apply one_line_append; [reflexivity | exact Hx].
      - change (dumps_members ((k, x) :: (k', y) :: d))
          with (encode_string k ++ ": " ++ dumps x ++ ", "
                  ++ dumps_members ((k', y) :: d)).
        apply one_line_append; [apply one_line_encode_string |].
        apply one_line_append; [reflexivity |].
        apply one_line_append; [exact Hx |].
        apply one_line_append; [reflexivity | exact IHd]. }
    apply one_line_append; [reflexivity |].
    apply one_line_append; [exact B | reflexivity].
Qed.

(** ** The audit log *)



(** * Further properties of the two scripts *)

(** ** The bash validator on every input *)

Section ValidatorRuns.
Context {rt : Runtime}.

(** What a run that ends in the handler leaves behind. *)
Lemma hook_error_run (e : exn) (s : io) :
  hook_error e s
  = (Exit 1, {| stdout := stdout s;
                stderr := stderr s ++ "Hook error: " ++ exn_str e ++ newline;
                files := files s |}).
Proof. reflexivity. Qed.

(** A command that is a string: the run is decided by the two tables. *)
Lemma validator_on_command (w : world) (c : string) (fs : filesystem) :
  bash_command w = Some (JStr c) ->
  BashValidator.main w (start fs)
  = match first_found DANGEROUS_PATTERNS c with
    | Some m =>
        (Exit 2, {| stdout := EmptyString; stderr := m ++ newline; files := fs |})
    | None =>
        match suggestions_for SUGGEST_ALTERNATIVES c with
        | [] => (Ret tt, start fs)
        | given =>
            (Ret tt, {| stdout := dumps (approval given) ++ newline;
                        stderr := EmptyString;
                        files := fs |})
        end
    end.
Proof.
  intros H. unfold BashValidator.main.
  rewrite (validate_bash _ _ w (JStr c)) by assumption.
  unfold try_except, bind at 1.
  rewrite check_dangerous_first_found by apply dangerous_patterns_valid.
  destruct (first_found DANGEROUS_PATTERNS c) as [m |]; [reflexivity |].
  unfold bind at 1.
  rewrite collect_suggestions_run by apply suggest_patterns_valid.
  simpl app.
  destruct (suggestions_for SUGGEST_ALTERNATIVES c); reflexivity.
Qed.

(** A command that is no string: the first search raises. *)
Lemma validator_on_non_string (w : world) (v : json) (fs : filesystem) :
  bash_command w = Some v ->
  (forall c, v <> JStr c) ->
  BashValidator.main w (start fs)
  = (Exit 1, {| stdout := EmptyString;
                stderr := "Hook error: " ++ exn_str (TypeError "re" v) ++ newline;
                files := fs |}).
Proof.
  intros H N. unfold BashValidator.main.
  rewrite (validate_bash _ _ w v) by assumption.
  destruct v; try reflexivity. now elim (N s).
Qed.

(** Every run of the validator is of one of three kinds: it fails in the
    handler, it passes another tool, or it has a command to look at. *)
Lemma validator_cases (w : world) (fs : filesystem) :
  (exists e,
      BashValidator.main w (start fs)
      = (Exit 1, {| stdout := EmptyString;
                    stderr := "Hook error: " ++ exn_str e ++ newline;
                    files := fs |}))
  \/ BashValidator.main w (start fs) = (Exit 0, start fs)
  \/ exists c, bash_command w = Some (JStr c).
Proof.
  destruct (bash_command w) as [v |] eqn:B.
  - destruct v as [| b | n | c | l | d];
      try (left; eexists;
           apply (validator_on_non_string w _ fs B); discriminate).
    right. right. now exists c.
  - unfold bash_command in B.
    unfold BashValidator.main, validate, try_except, load_stdin, loads_value,
      bind, get, ret.
    destruct (json_loads (stdin w)) as [v |]; [| left; eexists; reflexivity].
    destruct v as [| b | n | s | l | d]; try (left; eexists; reflexivity).
    destruct (is_str "bash" (dict_get_or d "tool_name" JNull));
      [| right; left; reflexivity].
    cbn [negb].
    destruct (dict_get_or d "tool_input" (JStr "{}")) as [| b | n | text | l | p];
      try (left; eexists; reflexivity).
    destruct (json_loads text) as [v |]; [| left; eexists; reflexivity].
    destruct v as [| b | n | s | l | p]; try (left; eexists; reflexivity).
    discriminate B.
Qed.

End ValidatorRuns.

Lemma first_found_none (c : string) (rules : list (string * string)) :
  existsb (fun rule => found true (fst rule) c) rules = false ->
  first_found rules c = None.
Proof.
  induction rules as [| [p m] rules IH]; simpl; intros H; [reflexivity |].
  apply orb_false_elim in H as [H1 H2]. rewrite H1. now apply IH.
Qed.

Lemma first_found_member (c : string) (rules : list (string * string))
      (m : string) :
  first_found rules c = Some m ->
  exists p, List.In (p, m) rules /\ found true p c = true.
Proof.
  induction rules as [| [p n] rules IH]; simpl; intros H; [discriminate |].
  destruct (found true p c) eqn:F.
  - injection H as <-. exists p. auto.
  - destruct (IH H) as (q & I & G). exists q. auto.
Qed.

Lemma suggestions_none (c : string) (rules : list (string * string)) :
  existsb (fun rule => found false (fst rule) c) rules = false ->
  suggestions_for rules c = [].
Proof.
  unfold suggestions_for.
  induction rules as [| [p m] rules IH]; simpl; intros H; [reflexivity |].
  apply orb_false_elim in H as [H1 H2]. rewrite H1. now apply IH.
Qed.

Lemma suggestions_from_table (c : string) (rules : list (string * string)) :
  incl (suggestions_for rules c) (map snd rules).
Proof.
  unfold suggestions_for. intros m H. apply in_map_iff in H as (rule & <- & I).
  apply filter_In in I as [I _]. now apply in_map.
Qed.

(** X1.  A bash command in which neither a dangerous pattern nor an
    alternative pattern is found is approved in silence: status 0,
    nothing on either stream, no file touched. *)
Theorem plain_commands_pass_silently {rt : Runtime} (w : world) (c : string)
        (fs : filesystem) :
  bash_command w = Some (JStr c) ->
  existsb (fun rule => found true (fst rule) c) DANGEROUS_PATTERNS = false ->
  existsb (fun rule => found false (fst rule) c) SUGGEST_ALTERNATIVES = false ->
  BashValidator.main w (start fs) = (Ret tt, start fs)
  /\ exit_status (fst (BashValidator.main w (start fs))) = 0.
Proof.
  intros Hc Hd Hs.
  rewrite (validator_on_command w c fs Hc).
  rewrite (first_found_none c _ Hd), (suggestions_none c _ Hs). auto.
Qed.

Lemma plain_commands_pass_silently_witness :
  let w := Sample.at_noon (Sample.bash_request "bash" "ls -la /tmp") in
  BashValidator.main (rt := Concrete.runtime) w (start Sample.empty_fs)
  = (Ret tt, start Sample.empty_fs).
Proof.
  intros w.
  refine (proj1 (plain_commands_pass_silently (rt := Concrete.runtime) w
                   "ls -la /tmp" Sample.empty_fs _ _ _));
    vm_compute; reflexivity.
Defined.

(** X2.  The command defaults to the empty string.  A request for bash
    without a [tool_input] (the decoder reading the default text as the
    empty object), or whose tool input is an object without a [command],
    is approved in silence. *)
Theorem missing_command_passes_silently {rt : Runtime} (w : world)
        (d : list (string * json)) (fs : filesystem) :
  json_loads (stdin w) = Some (JDict d) ->
  dict_get d "tool_name" = Some (JStr "bash") ->
  (dict_get d "tool_input" = None ->
   json_loads "{}" = Some (JDict []) ->
   BashValidator.main w (start fs) = (Ret tt, start fs))
  /\ (forall text p,
         dict_get d "tool_input" = Some (JStr text) ->
         json_loads text = Some (JDict p) ->
         dict_get p "command" = None ->
         BashValidator.main w (start fs) = (Ret tt, start fs)).
Proof.
  intros Hd Hn.
  assert (G : bash_command w = Some (JStr EmptyString) ->
              BashValidator.main w (start fs) = (Ret tt, start fs)).
  { intros Hc. rewrite (validator_on_command w EmptyString fs Hc).
    reflexivity. }
  split.
  - intros Hi He. apply G. unfold bash_command, dict_get_or.
    rewrite Hd, Hn, Hi. simpl. now rewrite He.
  - intros text p Hi Ht Hc. apply G. unfold bash_command, dict_get_or.
    rewrite Hd, Hn, Hi. simpl. now rewrite Ht, Hc.
Qed.

Lemma missing_command_passes_silently_witness :
  let w := Sample.at_noon (dumps (JDict [ ("tool_name", JStr "bash") ])) in
  BashValidator.main (rt := Concrete.runtime) w (start Sample.empty_fs)
  = (Ret tt, start Sample.empty_fs).
Proof.
  intros w.
  refine (proj1 (missing_command_passes_silently (rt := Concrete.runtime) w
                   [ ("tool_name", JStr "bash") ] Sample.empty_fs _ _) _ _);
    vm_compute; reflexivity.
Defined.

(** X3.  Every run of the validator, on any input, ends in exactly one of
    four ways and touches no file: status 0 with both streams empty;
    status 0 with the approve object for a non-empty list of suggestions
    of the table on standard output; status 2 with the message of a rule
    of the dangerous table on the error stream; status 1 with a hook
    error on the error stream.  Standard output is empty unless the
    status is 0, the error stream is empty unless it is not. *)
Theorem validator_outcomes {rt : Runtime} (w : world) (fs : filesystem) :
  let r := fst (BashValidator.main w (start fs)) in
  let s := snd (BashValidator.main w (start fs)) in
  files s = fs
  /\ ((exit_status r = 0 /\ stderr s = EmptyString
       /\ (stdout s = EmptyString
           \/ exists given,
               given <> []
               /\ incl given (map snd SUGGEST_ALTERNATIVES)
               /\ stdout s = dumps (approval given) ++ newline))
      \/ (exit_status r = 2 /\ stdout s = EmptyString
          /\ exists m,
              List.In m (map snd DANGEROUS_PATTERNS)
              /\ stderr s = m ++ newline)
      \/ (exit_status r = 1 /\ stdout s = EmptyString
          /\ exists e, stderr s = "Hook error: " ++ exn_str e ++ newline)).
Proof.
  destruct (validator_cases w fs) as [(e & E) | [E | (c & Hc)]].
  - rewrite E. simpl. split; [reflexivity |]. right. right. eauto.
  - rewrite E. simpl. split; [reflexivity |]. left. auto.
  - rewrite (validator_on_command w c fs Hc).
    destruct (first_found DANGEROUS_PATTERNS c) as [m |] eqn:F.
    + simpl. split; [reflexivity |]. right. left.
      destruct (first_found_member _ _ _ F) as (p & I & _).
      repeat split. exists m. split; [| reflexivity].
      now apply (in_map snd) in I.
    + pose proof (suggestions_from_table c SUGGEST_ALTERNATIVES) as I.
      destruct (suggestions_for SUGGEST_ALTERNATIVES c) as [| g given].
      * simpl. split; [reflexivity |]. left. auto.
      * cbn [fst snd files stdout stderr exit_status].
        split; [reflexivity |]. left. repeat split. right.
        exists (g :: given). repeat split; [discriminate | exact I].
Qed.

(** X4.  A request that is no JSON document, or a document that is no
    object, ends both hooks in the handler: status 1, the exception
    after [Hook error: ] on the error stream, nothing on standard output,
    no file touched. *)
Theorem malformed_request_is_a_hook_error {rt : Runtime} (w : world)
        (fs : filesystem) :
  (json_loads (stdin w) = None ->
   let failed :=
     (Exit 1, {| stdout := EmptyString;
                 stderr := "Hook error: "
                             ++ exn_str (JSONDecodeError (stdin w)) ++ newline;
                 files := fs |}) in
   BashValidator.main w (start fs) = failed
   /\ McpMonitor.main w (start fs) = failed)
  /\ (forall v,
         json_loads (stdin w) = Some v ->
         (forall d, v <> JDict d) ->
         let failed :=
           (Exit 1, {| stdout := EmptyString;
                       stderr := "Hook error: "
                                   ++ exn_str (AttributeError v "get") ++ newline;
                       files := fs |}) in
         BashValidator.main w (start fs) = failed
         /\ McpMonitor.main w (start fs) = failed).
Proof.
  split.
  - intros H.
    unfold BashValidator.main, McpMonitor.main, validate, try_except,
      load_stdin, loads_value, bind.
    rewrite H. split; reflexivity.
  - intros v H N.
    unfold BashValidator.main, McpMonitor.main, validate, try_except,
      load_stdin, loads_value, bind.
    rewrite H. destruct v; try (split; reflexivity). now elim (N d).
Qed.

Lemma malformed_request_is_a_hook_error_witness :
  let w := Sample.at_noon "{tool_name: bash}" in
  exit_status (fst (BashValidator.main (rt := Concrete.runtime) w
                      (start Sample.empty_fs))) = 1
  /\ exit_status (fst (McpMonitor.main (rt := Concrete.runtime) w
                         (start Sample.empty_fs))) = 1.
Proof.
  intros w.
  destruct (proj1 (malformed_request_is_a_hook_error (rt := Concrete.runtime)
                     w Sample.empty_fs) eq_refl) as [E1 E2].
  rewrite E1, E2. split; reflexivity.
Defined.

(** X5.  The validator wants the tool input as encoded text and the
    command as a string.  A tool input that is an object, a list, a
    number or the like, and a command that is not a string, end the run
    with status 1 and a hook error: the request is neither blocked nor
    approved, whatever it holds. *)
Theorem ill_typed_input_is_a_hook_error {rt : Runtime} (w : world)
        (d : list (string * json)) (fs : filesystem) :
  json_loads (stdin w) = Some (JDict d) ->
  dict_get d "tool_name" = Some (JStr "bash") ->
  (forall v,
      dict_get d "tool_input" = Some v ->
      (forall text, v <> JStr text) ->
      BashValidator.main w (start fs)
      = (Exit 1, {| stdout := EmptyString;
                    stderr := "Hook error: "
                                ++ exn_str (TypeError "json.loads" v) ++ newline;
                    files := fs |}))
  /\ (forall text p v,
         dict_get d "tool_input" = Some (JStr text) ->
         json_loads text = Some (JDict p) ->
         dict_get p "command" = Some v ->
         (forall c, v <> JStr c) ->
         BashValidator.main w (start fs)
         = (Exit 1, {| stdout := EmptyString;
                       stderr := "Hook error: "
                                   ++ exn_str (TypeError "re" v) ++ newline;
                       files := fs |})).
Proof.
  intros Hd Hn. split.
  - intros v Hi N.
    unfold BashValidator.main, validate, try_except, load_stdin, loads_value,
      bind, get, ret, dict_get_or.
    rewrite Hd, Hn, Hi. cbn [is_str]. rewrite String.eqb_refl. cbn [negb].
    destruct v; try reflexivity. now elim (N s).
  - intros text p v Hi Ht Hc N.
    apply validator_on_non_string; [| exact N].
    unfold bash_command, dict_get_or. rewrite Hd, Hn, Hi. simpl.
    now rewrite Ht, Hc.
Qed.

Lemma ill_typed_input_is_a_hook_error_witness :
  let w := Sample.at_noon
             (dumps (JDict [ ("tool_name", JStr "bash");
                             ("tool_input",
                              JDict [ ("command", JStr "rm -rf /") ]) ])) in
  exit_status (fst (BashValidator.main (rt := Concrete.runtime) w
                      (start Sample.empty_fs))) = 1.
Proof.
  intros w.
  rewrite (proj1 (ill_typed_input_is_a_hook_error (rt := Concrete.runtime) w
                    [ ("tool_name", JStr "bash");
                      ("tool_input", JDict [ ("command", JStr "rm -rf /") ]) ]
                    Sample.empty_fs eq_refl eq_refl)
             (JDict [ ("command", JStr "rm -rf /") ]) eq_refl
             ltac:(discriminate)).
  reflexivity.
Defined.

(** ** What the patterns of the validator find *)

(** A pattern with an item that no character of the subject can match
    matches nowhere in it. *)
Lemma repeat_then_needs (p f : ascii -> bool)
      (k : option ascii -> string -> bool) :
  (forall s, some_char f s = false -> forall prev, k prev s = false) ->
  forall s, some_char f s = false ->
            forall prev, Re.repeat_then p k prev s = false.
Proof.
  intros Hk. induction s as [| c s IH]; simpl; intros H prev.
  - now apply Hk.
  - apply orb_false_elim in H as [Hc Hs].
    rewrite IH by assumption. rewrite andb_false_r. simpl.
    apply Hk. simpl. now rewrite Hc, Hs.
Qed.

Lemma match_here_needs (ignorecase : bool) (a : Re.atom) (f : ascii -> bool)
      (r : Re.regex) :
  (forall c, Re.atom_match ignorecase a c = true -> f c = true) ->
  List.In (Re.One a) r ->
  forall s, some_char f s = false ->
            forall prev, Re.match_here ignorecase r prev s = false.
Proof.
  intros Hf. induction r as [| n r IH]; intros I; [now elim I |].
  destruct I as [-> | I].
  - intros [| c s] H prev; simpl; [reflexivity |].
    simpl in H. apply orb_false_elim in H as [Hc _].
    destruct (Re.atom_match ignorecase a c) eqn:E; [| reflexivity].
    apply Hf in E. congruence.
  - specialize (IH I). intros s H prev.
    destruct n as [b | b | b |]; simpl.
    + destruct s as [| c s]; [reflexivity |].
      simpl in H. apply orb_false_elim in H as [_ Hs].
      rewrite IH by assumption. apply andb_false_r.
    + now apply repeat_then_needs with (f := f).
    + destruct s as [| c s]; [reflexivity |].
      simpl in H. apply orb_false_elim in H as [_ Hs].
      rewrite (repeat_then_needs _ f _ IH) by assumption.
      apply andb_false_r.
    + rewrite IH by assumption. apply andb_false_r.
Qed.

Lemma search_from_needs (ignorecase : bool) (a : Re.atom) (f : ascii -> bool)
      (r : Re.regex) :
  (forall c, Re.atom_match ignorecase a c = true -> f c = true) ->
  List.In (Re.One a) r ->
  forall s, some_char f s = false ->
            forall prev, Re.search_from ignorecase r prev s = false.
Proof.
  intros Hf I. induction s as [| c s IH]; intros H prev; simpl.
  - now rewrite (match_here_needs ignorecase a f r Hf I).
  - rewrite (match_here_needs ignorecase a f r Hf I) by assumption.
    simpl in H. apply orb_false_elim in H as [_ Hs]. now apply IH.
Qed.

Lemma slash_only (c : ascii) :
  Re.atom_match true (Re.Lit "/") c = true -> Ascii.eqb c "/" = true.
Proof.
  intros H.
  assert (G : (negb (Re.atom_match true (Re.Lit "/") c) || Ascii.eqb c "/")
              = true).
  { apply (by_enumeration
             (fun c => negb (Re.atom_match true (Re.Lit "/") c)
                       || Ascii.eqb c "/")).
    vm_compute. reflexivity. }
  now rewrite H in G.
Qed.

Lemma no_slash_not_found (c : string) :
  some_char (fun x => Ascii.eqb x "/") c = false ->
  existsb (fun rule => found true (fst rule) c) DANGEROUS_PATTERNS = false.
Proof.
  intros H. unfold DANGEROUS_PATTERNS. cbn [existsb fst].
  assert (G : forall pattern r,
             Re.compile pattern = Some r ->
             List.In (Re.One (Re.Lit "/")) r ->
             found true pattern c = false).
  { intros pattern r E I. unfold found. rewrite E.
    now apply (search_from_needs true (Re.Lit "/")
                 (fun x => Ascii.eqb x "/") r slash_only I). }
  rewrite (G "\brm\s+-rf\s+/" _ eq_refl) by (simpl; tauto).
  rewrite (G "\bdd\s+.*\bof=/dev/[sh]d[a-z]" _ eq_refl) by (simpl; tauto).
  rewrite (G ">\s*/dev/null\s+2>&1" _ eq_refl) by (simpl; tauto).
  reflexivity.
Qed.

(** X6.  Every dangerous pattern asks for a slash: a bash command without
    the character [/] is never blocked; the run ends with status 0 and an
    empty error stream. *)
Theorem commands_without_slash_are_not_blocked {rt : Runtime} (w : world)
        (c : string) (fs : filesystem) :
  bash_command w = Some (JStr c) ->
  some_char (fun x => Ascii.eqb x "/") c = false ->
  first_found DANGEROUS_PATTERNS c = None
  /\ exit_status (fst (BashValidator.main w (start fs))) = 0
  /\ stderr (snd (BashValidator.main w (start fs))) = EmptyString.
Proof.
  intros Hc H.
  pose proof (first_found_none c _ (no_slash_not_found c H)) as F.
  rewrite (validator_on_command w c fs Hc), F.
  split; [reflexivity |].
  destruct (suggestions_for SUGGEST_ALTERNATIVES c); auto.
Qed.

Lemma commands_without_slash_are_not_blocked_witness :
  let w := Sample.at_noon (Sample.bash_request "bash" "rm -rf *") in
  exit_status (fst (BashValidator.main (rt := Concrete.runtime) w
                      (start Sample.empty_fs))) = 0.
Proof.
  intros w.
  refine (proj1 (proj2 (commands_without_slash_are_not_blocked
                          (rt := Concrete.runtime) w "rm -rf *"
                          Sample.empty_fs _ _)));
    vm_compute; reflexivity.
Defined.

(** Reading literal text, with or without the case flag. *)
Lemma match_literally_here (ignorecase : bool) (text : string)
      (r : Re.regex) :
  forall prev rest,
    Re.match_here ignorecase (literally text ++ r)%list prev (text ++ rest)
    = Re.match_here ignorecase r (prev_after text prev) rest.
Proof.
  induction text as [| c text IH]; intros prev rest; simpl; [reflexivity |].
  rewrite IH.
  replace (if ignorecase then Ascii.eqb (Chr.lower c) (Chr.lower c)
           else Ascii.eqb c c) with true; [reflexivity |].
  destruct ignorecase; now rewrite Ascii.eqb_refl.
Qed.

(** A match at some position is what a search looks for. *)
Lemma search_from_split (ignorecase : bool) (r : Re.regex) :
  forall s prev,
    Re.search_from ignorecase r prev s = true
    <-> exists pre rest,
        s = pre ++ rest
        /\ Re.match_here ignorecase r (prev_after pre prev) rest = true.
Proof.
  induction s as [| c s IH]; intros prev; simpl.
  - rewrite orb_false_r. split.
    + intros H. now exists EmptyString, EmptyString.
    + intros (pre & rest & E & H). destruct pre; [| discriminate].
      simpl in E. now subst rest.
  - split.
    + intros H. apply orb_prop in H as [H | H].
      * now exists EmptyString, (String c s).
      * apply IH in H as (pre & rest & -> & H).
        now exists (String c pre), rest.
    + intros (pre & rest & E & H). destruct pre as [| c' pre].
      * simpl in E, H. subst rest. now rewrite H.
      * simpl in E, H. injection E as -> ->.
        apply orb_true_intro. right. apply IH. now exists pre, rest.
Qed.

(** One or more white-space characters, then the rest of the pattern. *)
Lemma plus_space_here (ignorecase : bool) (r : Re.regex) (ws rest : string)
      (prev : option ascii) :
  ws <> EmptyString ->
  every Chr.isspace ws = true ->
  Re.match_here ignorecase r (prev_after ws prev) rest = true ->
  Re.match_here ignorecase (Re.Plus Re.Space :: r) prev (ws ++ rest) = true.
Proof.
  intros N E H. destruct ws as [| c ws]; [now elim N |].
  simpl in E. apply andb_prop in E as [Ec Ews].
  cbn [append Re.match_here Re.atom_match]. rewrite Ec. simpl.
  apply repeat_then_split. exists ws, rest. auto.
Qed.

Lemma rm_rf_found (pre ws1 ws2 post : string) :
  Re.word_at (prev_after pre None) = false ->
  ws1 <> EmptyString -> every Chr.isspace ws1 = true ->
  ws2 <> EmptyString -> every Chr.isspace ws2 = true ->
  found true "\brm\s+-rf\s+/"
        (pre ++ "rm" ++ ws1 ++ "-rf" ++ ws2 ++ "/" ++ post) = true.
Proof.
  intros Hp N1 E1 N2 E2. unfold found.
  change (Re.compile "\brm\s+-rf\s+/")
    with (Some (Re.Boundary
                  :: literally "rm"
                  ++ Re.Plus Re.Space
                  :: literally "-rf"
                  ++ Re.Plus Re.Space :: literally "/" ++ [])%list).
  apply search_from_split.
  exists pre, ("rm" ++ ws1 ++ "-rf" ++ ws2 ++ "/" ++ post).
  split; [reflexivity |].
  cbn [Re.match_here]. rewrite Hp.
  change (Re.word_at (Re.peek ("rm" ++ ws1 ++ "-rf" ++ ws2 ++ "/" ++ post)))
    with true.
  cbn [xorb andb]. rewrite match_literally_here.
  apply plus_space_here; [assumption | assumption |].
  rewrite match_literally_here.
  apply plus_space_here; [assumption | assumption |].
  rewrite match_literally_here. reflexivity.
Qed.

(** X7.  The first dangerous rule at work: [rm], white space, [-rf],
    white space and a slash, with letters in any case, any amount of
    white space at the two places, and [rm] not glued to a word character
    before it, is blocked with the message of the rule, wherever it
    stands in the command. *)
Theorem rm_rf_of_a_root_path_is_blocked {rt : Runtime} (w : world)
        (c pre ws1 ws2 post : string) (fs : filesystem) :
  bash_command w = Some (JStr c) ->
  caseless c (pre ++ "rm" ++ ws1 ++ "-rf" ++ ws2 ++ "/" ++ post) = true ->
  Re.word_at (prev_after pre None) = false ->
  ws1 <> EmptyString -> every Chr.isspace ws1 = true ->
  ws2 <> EmptyString -> every Chr.isspace ws2 = true ->
  BashValidator.main w (start fs)
  = (Exit 2, {| stdout := EmptyString;
                stderr := "Dangerous command: rm -rf /" ++ newline;
                files := fs |}).
Proof.
  intros Hc Hl Hp N1 E1 N2 E2.
  rewrite (validator_on_command w c fs Hc).
  unfold DANGEROUS_PATTERNS. cbn [first_found].
  rewrite (found_caseless _ _ _ Hl).
  now rewrite rm_rf_found.
Qed.

Lemma rm_rf_of_a_root_path_is_blocked_witness :
  let w := Sample.at_noon (Sample.bash_request "bash" "cd /; sudo Rm   -RF /etc") in
  exit_status (fst (BashValidator.main (rt := Concrete.runtime) w
                      (start Sample.empty_fs))) = 2.
Proof.
  intros w.
  rewrite (rm_rf_of_a_root_path_is_blocked (rt := Concrete.runtime) w
             "cd /; sudo Rm   -RF /etc" "cd /; sudo " "   " " " "etc"
             Sample.empty_fs eq_refl eq_refl eq_refl
             ltac:(discriminate) eq_refl ltac:(discriminate) eq_refl).
  reflexivity.
Defined.

Lemma grep_found_iff (c : string) :
  found false "\bgrep\b" c = true
  <-> exists pre post,
      c = pre ++ "grep" ++ post
      /\ Re.word_at (prev_after pre None) = false
      /\ Re.word_at (Re.peek post) = false.
Proof.
  unfold found.
  change (Re.compile "\bgrep\b")
    with (Some (Re.Boundary :: literally "grep" ++ [Re.Boundary])%list).
  unfold Re.searches. rewrite search_from_split. split.
  - intros (pre & rest & -> & H). cbn [Re.match_here] in H.
    apply andb_prop in H as [Hb H].
    apply match_literally in H as (post & -> & H).
    cbn [Re.match_here prev_after] in H. rewrite andb_true_r in H.
    exists pre, post. split; [reflexivity |].
    change (Re.word_at (Re.peek ("grep" ++ post))) with true in Hb.
    change (Re.word_at (Some "p"%char)) with true in H.
    split.
    + now destruct (Re.word_at (prev_after pre None)).
    + now destruct (Re.word_at (Re.peek post)).
  - intros (pre & post & -> & Hp & Hq).
    exists pre, ("grep" ++ post). split; [reflexivity |].
    cbn [Re.match_here]. rewrite Hp.
    change (Re.word_at (Re.peek ("grep" ++ post))) with true.
    cbn [xorb andb]. apply match_literally. exists post.
    split; [reflexivity |].
    cbn [Re.match_here prev_after]. rewrite Hq. reflexivity.
Qed.


Lemma prev_after_append (a b : string) (p : option ascii) :
  prev_after (a ++ b) p = prev_after b (prev_after a p).
Proof. revert p. induction a as [| c a IH]; intros p; simpl; auto. Qed.

Lemma prev_after_some (a : string) (p q : option ascii) :
  a <> EmptyString -> prev_after a p = prev_after a q.
Proof. destruct a; [now intros N; elim N | reflexivity]. Qed.

Lemma lower_letter_in_range (y : ascii) :
  Chr.between 97 122 y = true ->
  Re.atom_match true (Re.OneOf [Re.SRange "a" "z"]) y = true.
Proof.
  intros H.
  assert (G : (negb (Chr.between 97 122 y)
               || Re.atom_match true (Re.OneOf [Re.SRange "a" "z"]) y) = true).
  { apply (by_enumeration
             (fun y => negb (Chr.between 97 122 y)
                       || Re.atom_match true (Re.OneOf [Re.SRange "a" "z"]) y)).
    vm_compute. reflexivity. }
  now rewrite H in G.
Qed.

Lemma disk_write_found (pre ws mid post : string) (x y : ascii) :
  Re.word_at (prev_after pre None) = false ->
  ws <> EmptyString -> every Chr.isspace ws = true ->
  one_line mid = true ->
  Re.word_at (prev_after (ws ++ mid) None) = false ->
  x = "s"%char \/ x = "h"%char ->
  Chr.between 97 122 y = true ->
  found true "\bdd\s+.*\bof=/dev/[sh]d[a-z]"
        (pre ++ "dd" ++ ws ++ mid ++ "of=/dev/"
             ++ String x (String "d" (String y post))) = true.
Proof.
  intros Hp N E L Hm Hx Hy. unfold found.
  change (Re.compile "\bdd\s+.*\bof=/dev/[sh]d[a-z]")
    with (Some (Re.Boundary
                  :: literally "dd"
                  ++ Re.Plus Re.Space
                  :: Re.Star Re.Any
                  :: Re.Boundary
                  :: literally "of=/dev/"
                  ++ Re.One (Re.OneOf [Re.SChar "s"; Re.SChar "h"])
                  :: literally "d"
                  ++ [Re.One (Re.OneOf [Re.SRange "a" "z"])])%list).
  apply search_from_split.
  exists pre, ("dd" ++ ws ++ mid ++ "of=/dev/"
                    ++ String x (String "d" (String y post))).
  split; [reflexivity |].
  cbn [Re.match_here]. rewrite Hp.
  change (Re.word_at (Re.peek ("dd" ++ ws ++ mid ++ "of=/dev/"
                                    ++ String x (String "d" (String y post)))))
    with true.
  cbn [xorb andb]. rewrite match_literally_here.
  apply plus_space_here; [assumption | assumption |].
  cbn [Re.match_here]. apply repeat_then_split.
  exists mid, ("of=/dev/" ++ String x (String "d" (String y post))).
  split; [reflexivity |]. split; [exact L |].
  rewrite prev_after_append in Hm.
  rewrite (prev_after_some ws _ None N). rewrite Hm.
  change (Re.word_at (Re.peek ("of=/dev/"
                                 ++ String x (String "d" (String y post)))))
    with true.
  cbn [xorb andb]. rewrite match_literally_here.
  cbn [Re.match_here].
  assert (X : Re.atom_match true (Re.OneOf [Re.SChar "s"; Re.SChar "h"]) x
              = true) by (destruct Hx as [-> | ->]; reflexivity).
  rewrite X. cbn [andb].
  change (String "d" (String y post)) with ("d" ++ String y post).
  rewrite match_literally_here. cbn [Re.match_here].
  now rewrite (lower_letter_in_range y Hy).
Qed.

(** X9.  The second dangerous rule at work: [dd], white space, anything
    on the same line, then [of=/dev/] followed by [sd] or [hd] and a
    letter, with letters in any case, [dd] and [of=] not glued to a word
    character before them, is blocked, with the message of that rule or,
    when the first rule is found as well, with the message of the
    first. *)
Theorem dd_to_a_disk_is_blocked {rt : Runtime} (w : world)
        (c pre ws mid post : string) (x y : ascii) (fs : filesystem) :
  bash_command w = Some (JStr c) ->
  caseless c (pre ++ "dd" ++ ws ++ mid ++ "of=/dev/"
                  ++ String x (String "d" (String y post))) = true ->
  Re.word_at (prev_after pre None) = false ->
  ws <> EmptyString -> every Chr.isspace ws = true ->
  one_line mid = true ->
  Re.word_at (prev_after (ws ++ mid) None) = false ->
  x = "s"%char \/ x = "h"%char ->
  Chr.between 97 122 y = true ->
  exists m,
    (m = "Dangerous command: rm -rf /" \/ m = "Direct disk write detected")
    /\ BashValidator.main w (start fs)
       = (Exit 2, {| stdout := EmptyString; stderr := m ++ newline;
                     files := fs |}).
Proof.
  intros Hc Hl Hp N E L Hm Hx Hy.
  rewrite (validator_on_command w c fs Hc).
  unfold DANGEROUS_PATTERNS. cbn [first_found].
  rewrite (found_caseless "\bdd\s+.*\bof=/dev/[sh]d[a-z]" _ _ Hl).
  rewrite disk_write_found by assumption.
  destruct (found true "\brm\s+-rf\s+/" c); eauto.
Qed.

Lemma dd_to_a_disk_is_blocked_witness :
  let w := Sample.at_noon
             (Sample.bash_request "bash" "sudo DD if=disk.img bs=4M OF=/dev/SDB") in
  exit_status (fst (BashValidator.main (rt := Concrete.runtime) w
                      (start Sample.empty_fs))) = 2.
Proof.
  intros w.
  destruct (dd_to_a_disk_is_blocked (rt := Concrete.runtime) w
              "sudo DD if=disk.img bs=4M OF=/dev/SDB"
              "sudo " " " "if=disk.img bs=4M " EmptyString "s" "b"
              Sample.empty_fs eq_refl eq_refl eq_refl
              ltac:(discriminate) eq_refl eq_refl eq_refl
              (or_introl eq_refl) eq_refl) as (m & _ & E).
  now rewrite E.
Defined.

(** ** The monitor on every input *)

Section MonitorEveryInput.
Context {rt : Runtime}.

(** A tool name that is no string: the first match raises. *)
Lemma monitor_on_non_string (w : world) (v tool_input : json)
      (fs : filesystem) :
  tool_call w = Some (v, tool_input) ->
  (forall t, v <> JStr t) ->
  McpMonitor.main w (start fs)
  = (Exit 1, {| stdout := EmptyString;
                stderr := "Hook error: " ++ exn_str (TypeError "re" v) ++ newline;
                files := fs |}).
Proof.
  intros H N. rewrite (monitor_request w _ _ _ H).
  destruct v; try reflexivity. now elim (N s).
Qed.

(** Every run of the monitor either fails before it looks at the tables
    or has a tool name that is a string. *)
Lemma monitor_cases (w : world) (fs : filesystem) :
  (exists e,
      McpMonitor.main w (start fs)
      = (Exit 1, {| stdout := EmptyString;
                    stderr := "Hook error: " ++ exn_str e ++ newline;
                    files := fs |}))
  \/ exists t tool_input, tool_call w = Some (JStr t, tool_input).
Proof.
  destruct (tool_call w) as [[v ti] |] eqn:T.
  - destruct v as [| b | n | t | l | d];
      try (left; eexists;
           apply (monitor_on_non_string w _ ti fs T); discriminate).
    right. now exists t, ti.
  - left. unfold tool_call in T.
    unfold McpMonitor.main, try_except, load_stdin, loads_value, bind.
    destruct (json_loads (stdin w)) as [v |]; [| eexists; reflexivity].
    destruct v; try (eexists; reflexivity). discriminate T.
Qed.

Lemma append_file_failed (path data : string) (fs fs' : filesystem)
      (e : exn) :
  append_file path data fs = (Some e, fs') -> fs' = fs.
Proof.
  unfold append_file. destruct (fs path) as [[| old] |].
  - now intros [= _ <-].
  - discriminate.
  - destruct (last (map Some (parents path)) None) as [d |].
    + destruct (fs d) as [[| x] |]; try discriminate; now intros [= _ <-].
    + discriminate.
Qed.

End MonitorEveryInput.

(** X10.  Every run of the monitor, on any input, ends in exactly one of
    three ways: status 0 with the block decision for a blocked tool name
    on standard output and no file touched; status 0 with both streams
    empty; status 1 with a hook error on the error stream and nothing on
    standard output.  The status is never 2 and the rate-limit decision
    is never printed. *)
Theorem monitor_outcomes {rt : Runtime} (w : world) (fs : filesystem) :
  let r := fst (McpMonitor.main w (start fs)) in
  let s := snd (McpMonitor.main w (start fs)) in
  (exit_status r = 0 /\ stderr s = EmptyString /\ files s = fs
   /\ exists t tool_input,
       tool_call w = Some (JStr t, tool_input) /\ blocked t = true
       /\ stdout s = dumps (blocked_output (JStr t)) ++ newline)
  \/ (exit_status r = 0 /\ stderr s = EmptyString /\ stdout s = EmptyString)
  \/ (exit_status r = 1 /\ stdout s = EmptyString
      /\ exists e, stderr s = "Hook error: " ++ exn_str e ++ newline).
Proof.
  destruct (monitor_cases w fs) as [(e & E) | (t & ti & T)].
  - rewrite E. right. right. simpl. eauto.
  - destruct (blocked t) eqn:B.
    + rewrite (monitor_blocks w t ti fs T B). left. simpl.
      repeat split. now exists t, ti.
    + destruct (makedirs (log_dir w) fs) as [made fs1] eqn:M.
      destruct (monitor_log_cases w t ti fs fs1 made T B M) as (H1 & H2 & H3).
      destruct made as [e |].
      * rewrite (H1 e eq_refl). right. right. simpl. eauto.
      * destruct (append_file (log_path w)
                    (dumps (log_entry w (JStr t) ti) ++ newline) fs1)
          as [[e |] fs2] eqn:A.
        -- rewrite (H2 e fs2 eq_refl eq_refl). right. right. simpl. eauto.
        -- rewrite (H3 fs2 eq_refl eq_refl). right. left. simpl. auto.
Qed.

(** X11.  The monitor only ever appends to its log: after any run, on any
    input and however it ends, the log holds what it held before followed
    by what the run added, and the text of every other file is what it
    was. *)
Theorem log_is_append_only {rt : Runtime} (w : world) (fs : filesystem) :
  let after := files (snd (McpMonitor.main w (start fs))) in
  (exists added,
      content after (log_path w) = content fs (log_path w) ++ added)
  /\ forall q, String.eqb q (log_path w) = false ->
               content after q = content fs q.
Proof.
  assert (Same : forall fs', (forall q, content fs' q = content fs q) ->
                 (exists added,
                     content fs' (log_path w)
                     = content fs (log_path w) ++ added)
                 /\ forall q, String.eqb q (log_path w) = false ->
                              content fs' q = content fs q).
  { intros fs' H. split; [| intros q _; apply H].
    exists EmptyString. now rewrite H, append_empty. }
  destruct (monitor_cases w fs) as [(e & E) | (t & ti & T)].
  - rewrite E. now apply Same.
  - destruct (blocked t) eqn:B.
    + rewrite (monitor_blocks w t ti fs T B). now apply Same.
    + destruct (makedirs (log_dir w) fs) as [made fs1] eqn:M.
      pose proof (fun q => makedirs_content _ _ _ _ q M) as C.
      destruct (monitor_log_cases w t ti fs fs1 made T B M) as (H1 & H2 & H3).
      destruct made as [e |].
      * rewrite (H1 e eq_refl). now apply Same.
      * destruct (append_file (log_path w)
                    (dumps (log_entry w (JStr t) ti) ++ newline) fs1)
          as [[e |] fs2] eqn:A.
        -- rewrite (H2 e fs2 eq_refl eq_refl).
           apply append_file_failed in A. subst fs2. now apply Same.
        -- rewrite (H3 fs2 eq_refl eq_refl). cbn [snd files].
           destruct (append_file_done _ _ _ _ A) as (F & G). split.
           ++ eexists. unfold content at 1. rewrite F. now rewrite C.
           ++ intros q Q. unfold content at 1. rewrite (G q Q).
              apply C.
Qed.

(** X12.  A tool name that is not a string (a number, [null], a list)
    ends the monitor with status 1 and a hook error, nothing being
    logged; a request without any [tool_name] is taken as a call of the
    tool with the empty name, which no table matches: it is logged under
    that name and approved. *)
Theorem odd_tool_names {rt : Runtime} (w : world)
        (d : list (string * json)) (fs : filesystem) :
  json_loads (stdin w) = Some (JDict d) ->
  (forall v,
      dict_get d "tool_name" = Some v ->
      (forall t, v <> JStr t) ->
      McpMonitor.main w (start fs)
      = (Exit 1, {| stdout := EmptyString;
                    stderr := "Hook error: "
                                ++ exn_str (TypeError "re" v) ++ newline;
                    files := fs |}))
  /\ (dict_get d "tool_name" = None ->
      forall fs1 fs2,
        makedirs (log_dir w) fs = (None, fs1) ->
        append_file (log_path w)
          (dumps (JDict [ ("timestamp", JStr (now_isoformat w));
                          ("tool", JStr EmptyString);
                          ("input", dict_get_or d "tool_input" (JDict [])) ])
             ++ newline) fs1 = (None, fs2) ->
        McpMonitor.main w (start fs)
        = (Ret tt, {| stdout := EmptyString; stderr := EmptyString;
                      files := fs2 |})).
Proof.
  intros Hd. split.
  - intros v Hn N. apply monitor_on_non_string with (tool_input :=
      dict_get_or d "tool_input" (JDict [])); [| exact N].
    unfold tool_call, dict_get_or. now rewrite Hd, Hn.
  - intros Hn fs1 fs2 Hm Ha.
    assert (T : tool_call w
                = Some (JStr EmptyString, dict_get_or d "tool_input" (JDict [])))
      by (unfold tool_call, dict_get_or at 1; now rewrite Hd, Hn).
    destruct (monitor_log_cases w EmptyString _ fs fs1 None T eq_refl Hm)
      as (_ & _ & H).
    now apply H.
Qed.

Lemma odd_tool_names_witness :
  let w := Sample.at_noon (dumps (JDict [ ("tool_name", JInt 7) ])) in
  exit_status (fst (McpMonitor.main (rt := Concrete.runtime) w
                      (start Sample.empty_fs))) = 1.
Proof.
  intros w.
  rewrite (proj1 (odd_tool_names (rt := Concrete.runtime) w
                    [ ("tool_name", JInt 7) ] Sample.empty_fs eq_refl)
             (JInt 7) eq_refl ltac:(discriminate)).
  reflexivity.
Defined.

(** ** Where the log is *)

Lemma ends_with_slash_append (a b : string) :
  b <> EmptyString -> ends_with_slash (a ++ b) = ends_with_slash b.
Proof.
  intros N. induction a as [| c a IH]; [reflexivity |].
  simpl. rewrite IH. destruct (a ++ b) eqn:E; [| reflexivity].
  destruct a; simpl in E; [now elim N | discriminate].
Qed.

Lemma path_join_relative (a b : string) :
  starts_with_slash b = false ->
  b <> EmptyString ->
  ends_with_slash b = false ->
  path_join a b
  = match a with
    | EmptyString => b
    | _ => if ends_with_slash a then a ++ b else a ++ "/" ++ b
    end
  /\ path_join a b <> EmptyString
  /\ ends_with_slash (path_join a b) = false.
Proof.
  intros S N E. unfold path_join. rewrite S. split; [reflexivity |].
  destruct a as [| c a]; [auto |].
  destruct (ends_with_slash (String c a)).
  - split; [discriminate |]. now rewrite ends_with_slash_append.
  - split; [discriminate |].
    rewrite ends_with_slash_append; [| discriminate].
    now destruct b.
Qed.

Lemma path_join_after (a b : string) :
  a <> EmptyString ->
  ends_with_slash a = false ->
  starts_with_slash b = false ->
  path_join a b = a ++ "/" ++ b.
Proof.
  intros N E S. unfold path_join. rewrite S, E. now destruct a.
Qed.

(** X13.  The log is [mcphost/logs/mcp-usage.jsonl] under the
    configuration home.  [XDG_CONFIG_HOME], when set, is that home
    whatever [HOME] is: one separator is put after it unless it ends with
    one, and an empty value gives a path relative to the working
    directory.  When it is not set, the home is [.config] under the home
    directory, taken from [HOME] or else from the password database, its
    trailing slashes removed. *)
Theorem log_path_shape (w : world) :
  let name := "mcphost/logs/mcp-usage.jsonl" in
  (forall base,
      environ_get (environ w) "XDG_CONFIG_HOME" = Some base ->
      log_path w
      = match base with
        | EmptyString => name
        | _ => if ends_with_slash base then base ++ name
               else base ++ "/" ++ name
        end)
  /\ (environ_get (environ w) "XDG_CONFIG_HOME" = None ->
      forall home,
        (environ_get (environ w) "HOME" = Some home
         \/ (environ_get (environ w) "HOME" = None /\ pw_dir w = Some home)) ->
        log_path w = rstrip_slash home ++ "/.config/" ++ name)
  /\ (environ_get (environ w) "XDG_CONFIG_HOME" = None ->
      environ_get (environ w) "HOME" = None ->
      pw_dir w = None ->
      log_path w = "~/.config/" ++ name).
Proof.
  intros name.
  assert (J : forall base,
             log_path w = path_join (path_join (path_join base "mcphost") "logs")
                                    "mcp-usage.jsonl" ->
             log_path w
             = match base with
               | EmptyString => name
               | _ => if ends_with_slash base then base ++ name
                      else base ++ "/" ++ name
               end).
  { intros base ->.
    destruct (path_join_relative base "mcphost" eq_refl ltac:(discriminate)
                eq_refl) as (E1 & N1 & S1).
    destruct (path_join_relative (path_join base "mcphost") "logs" eq_refl
                ltac:(discriminate) eq_refl) as (_ & N2 & S2).
    rewrite (path_join_after (path_join (path_join base "mcphost") "logs")
               "mcp-usage.jsonl" N2 S2 eq_refl).
    rewrite (path_join_after (path_join base "mcphost") "logs" N1 S1 eq_refl).
    rewrite E1. subst name.
    destruct base as [| c base]; [reflexivity |].
    destruct (ends_with_slash (String c base));
      now rewrite !append_assoc. }
  assert (K : forall stem,
             (stem ++ "/.config") ++ "/" ++ name = stem ++ "/.config/" ++ name)
    by (intros stem; now rewrite append_assoc).
  assert (C : forall stem,
             match stem ++ "/.config" with
             | EmptyString => name
             | _ => if ends_with_slash (stem ++ "/.config")
                    then (stem ++ "/.config") ++ name
                    else (stem ++ "/.config") ++ "/" ++ name
             end = stem ++ "/.config/" ++ name).
  { intros stem. rewrite ends_with_slash_append by discriminate.
    simpl ends_with_slash. cbv iota. rewrite K.
    destruct stem; reflexivity. }
  split; [| split].
  - intros base H. apply J. unfold log_path, log_dir, config_home.
    now rewrite H.
  - intros H home Hh.
    rewrite (J (rstrip_slash home ++ "/.config")); [apply C |].
    unfold log_path, log_dir, config_home, expanduser_config. rewrite H.
    destruct Hh as [-> | [-> ->]]; reflexivity.
  - intros H Hh Hp.
    rewrite (J "~/.config"); [reflexivity |].
    unfold log_path, log_dir, config_home, expanduser_config.
    now rewrite H, Hh, Hp.
Qed.

Lemma log_path_shape_witness :
  log_path {| stdin := EmptyString;
              environ := [ ("HOME", "/home/dev");
                           ("XDG_CONFIG_HOME", "/srv/config/") ];
              pw_dir := None;
              now_isoformat := EmptyString |}
  = "/srv/config/mcphost/logs/mcp-usage.jsonl".
Proof.
  exact (proj1 (log_path_shape
                  {| stdin := EmptyString;
                     environ := [ ("HOME", "/home/dev");
                                  ("XDG_CONFIG_HOME", "/srv/config/") ];
                     pw_dir := None;
                     now_isoformat := EmptyString |})
               "/srv/config/" eq_refl).
Defined.

(** ** What is printed can be decoded *)


(** ** Calls in succession *)

Lemma mkdir_each_keeps (dirs : list string) :
  forall under_file fs made fs1,
    mkdir_each dirs under_file fs = (made, fs1) ->
    forall q, exists_in fs q = true -> fs1 q = fs q.
Proof.
  induction dirs as [| d ds IH]; simpl; intros u fs made fs1 H q Q.
  - now injection H as <- <-.
  - destruct (fs d) as [[| text] |] eqn:E.
    + now apply IH with (q := q) in H.
    + destruct ds; [now injection H as <- <- | now apply IH with (q := q) in H].
    + destruct u; [now injection H as <- <- |].
      assert (N : String.eqb q d = false).
      { destruct (String.eqb q d) eqn:X; [| reflexivity].
        apply String.eqb_eq in X. subst q. unfold exists_in in Q.
        now rewrite E in Q. }
      apply IH with (q := q) in H.
      * rewrite H. unfold fs_set. now rewrite N.
      * unfold exists_in, fs_set. rewrite N. exact Q.
Qed.

(** After directories were made without error, all of them are there and
    the last is a directory. *)
Lemma mkdir_each_done (dirs : list string) :
  forall under_file fs fs1,
    mkdir_each dirs under_file fs = (None, fs1) ->
    forallb (exists_in fs1) dirs = true
    /\ (dirs <> [] -> fs1 (last dirs EmptyString) = Some Dir).
Proof.
  induction dirs as [| d ds IH]; intros u fs fs1 H; [now split |].
  cbn [mkdir_each] in H.
  assert (Step : forall u' fs',
             mkdir_each ds u' fs' = (None, fs1) ->
             exists_in fs' d = true ->
             (ds = [] -> fs' d = Some Dir) ->
             forallb (exists_in fs1) (d :: ds) = true
             /\ (d :: ds <> [] -> fs1 (last (d :: ds) EmptyString) = Some Dir)).
  { intros u' fs' H' Q L. destruct (IH u' fs' fs1 H') as (A & B).
    pose proof (mkdir_each_keeps ds u' fs' None fs1 H' d Q) as K.
    split.
    - cbn [forallb]. rewrite A, andb_true_r. unfold exists_in in *.
      now rewrite K.
    - intros _. destruct ds as [| d' ds'].
      + cbn [last]. rewrite K. now apply L.
      + apply B. discriminate. }
  destruct (fs d) as [[| text] |] eqn:E.
  - apply (Step false fs H); [unfold exists_in; now rewrite E | now intros _].
  - destruct ds as [| d' ds']; [discriminate H |].
    apply (Step true fs H); [unfold exists_in; now rewrite E | discriminate].
  - destruct u; [discriminate H |].
    apply (Step false (fs_set fs d Dir) H);
      unfold exists_in, fs_set; rewrite String.eqb_refl; auto.
Qed.

(** Where all the directories are there and the last is a directory,
    making them again does nothing. *)
Lemma mkdir_each_again (dirs : list string) :
  forall under_file fs,
    forallb (exists_in fs) dirs = true ->
    (dirs <> [] -> fs (last dirs EmptyString) = Some Dir) ->
    mkdir_each dirs under_file fs = (None, fs).
Proof.
  induction dirs as [| d ds IH]; intros u fs A L; [reflexivity |].
  cbn [forallb] in A. apply andb_prop in A as [Q A].
  cbn [mkdir_each]. unfold exists_in in Q.
  assert (L' : ds <> [] -> fs (last ds EmptyString) = Some Dir).
  { intros N. destruct ds; [now elim N |]. apply L. discriminate. }
  destruct (fs d) as [[| text] |] eqn:E; [now apply IH | | discriminate].
  destruct ds as [| d' ds'].
  - cbn [last] in L. rewrite E in L. discriminate L. discriminate.
  - now apply IH.
Qed.

Lemma parents_from_shorter (s : string) :
  forall pre d,
    List.In d (parents_from pre s) ->
    String.length d < String.length pre + String.length s.
Proof.
  induction s as [| c s IH]; intros pre d H; [now elim H |].
  cbn [parents_from] in H. apply in_app_or in H as [H | H].
  - destruct (Ascii.eqb c "/"); [| now elim H].
    destruct pre; [now elim H |]. destruct H as [<- | []]. simpl. lia.
  - apply IH in H. rewrite length_append in H. simpl in *. lia.
Qed.

Lemma log_path_is_no_directory_on_the_way (w : world) (d : string) :
  List.In d (parents (log_dir w) ++ [log_dir w])%list ->
  String.eqb d (log_path w) = false.
Proof.
  intros H.
  assert (Ld : String.length d <= String.length (log_dir w)).
  { apply in_app_or in H as [H | [<- | []]]; [| lia].
    apply parents_from_shorter in H. simpl in H. lia. }
  assert (Lp : String.length (log_dir w) < String.length (log_path w)).
  { unfold log_path, path_join. cbn [starts_with_slash].
    destruct (log_dir w) as [| c a]; [simpl; lia |].
    destruct (ends_with_slash (String c a)); rewrite !length_append;
      simpl; lia. }
  destruct (String.eqb d (log_path w)) eqn:E; [| reflexivity].
  apply String.eqb_eq in E. subst d. lia.
Qed.

Lemma final_files_cons (run : nat * io) (runs : list (nat * io))
      (fs : filesystem) :
  final_files (run :: runs) fs = final_files runs (files (snd run)).
Proof.
  unfold final_files. cbn [map].
  generalize (files (snd run)) as a. generalize fs as d.
  generalize (map (fun r : nat * io => files (snd r)) runs) as l.
  induction l as [| b l IH]; intros d a; [reflexivity |].
  change (last (a :: b :: l) d) with (last (b :: l) d).
  now rewrite (IH d b), (IH a b).
Qed.

Section Succession.
Context {rt : Runtime}.

Lemma log_ready_after_write (w : world) (fs1 fs2 : filesystem)
      (line : string) :
  makedirs (log_dir w) fs1 = (None, fs1)
  \/ (exists fs, makedirs (log_dir w) fs = (None, fs1)) ->
  append_file (log_path w) line fs1 = (None, fs2) ->
  log_ready w fs2.
Proof.
  intros M A.
  assert (D : forallb (exists_in fs1) (parents (log_dir w) ++ [log_dir w])%list
              = true
              /\ fs1 (log_dir w) = Some Dir).
  { assert (X : exists fs, mkdir_each (parents (log_dir w) ++ [log_dir w])%list
                             false fs = (None, fs1))
      by (destruct M as [M | [fs M]]; eauto).
    destruct X as [fs X]. apply mkdir_each_done in X as [X1 X2].
    split; [exact X1 |].
    rewrite last_last in X2. apply X2.
    intros E. now apply app_eq_nil in E as [_ E]. }
  destruct D as [D1 D2].
  destruct (append_file_done _ _ _ _ A) as (F & G).
  assert (Same : forall d,
             List.In d (parents (log_dir w) ++ [log_dir w])%list ->
             fs2 d = fs1 d).
  { intros d I. apply G. now apply log_path_is_no_directory_on_the_way. }
  split; [| split].
  - apply forallb_forall. intros d I. rewrite forallb_forall in D1.
    specialize (D1 d I). unfold exists_in in *. now rewrite (Same d I).
  - rewrite Same; [exact D2 |]. apply in_or_app. right. now left.
  - eauto.
Qed.

(** On a log that is ready, a loggable call is logged, and the log is
    ready for the next. *)
Lemma logged_when_ready (w0 w : world) (fs : filesystem) :
  log_dir w = log_dir w0 ->
  loggable w = true ->
  log_ready w0 fs ->
  exists fs2,
    McpMonitor.main w (start fs)
    = (Ret tt, {| stdout := EmptyString; stderr := EmptyString; files := fs2 |})
    /\ content fs2 (log_path w0) = content fs (log_path w0) ++ log_line w
    /\ log_ready w0 fs2.
Proof.
  intros E L (R1 & R2 & text & R3).
  assert (P : log_path w = log_path w0) by (unfold log_path; now rewrite E).
  unfold loggable in L. unfold log_line.
  destruct (tool_call w) as [[tn ti] |] eqn:T; [| discriminate].
  destruct tn as [| | | t | |]; try discriminate.
  apply negb_true_iff in L.
  assert (M : makedirs (log_dir w) fs = (None, fs)).
  { rewrite E. apply mkdir_each_again; [exact R1 |].
    intros _. now rewrite last_last. }
  destruct (monitor_log_cases w t ti fs fs None T L M) as (_ & _ & H).
  set (line := dumps (log_entry w (JStr t) ti) ++ newline) in *.
  assert (A : append_file (log_path w) line fs
              = (None, fs_set fs (log_path w) (File (text ++ line)))).
  { unfold append_file. rewrite P, R3. reflexivity. }
  exists (fs_set fs (log_path w) (File (text ++ line))).
  split; [now apply H |]. split.
  - unfold content, fs_set. rewrite P, String.eqb_refl, R3. reflexivity.
  - assert (X : log_ready w (fs_set fs (log_path w) (File (text ++ line))))
      by (apply (log_ready_after_write w fs _ line); [now left | exact A]).
    unfold log_ready in *. now rewrite <- E, <- P.
Qed.

Lemma run_calls_ready (w0 : world) (calls : list world) :
  Forall (fun w => log_dir w = log_dir w0) calls ->
  forallb loggable calls = true ->
  forall fs,
    log_ready w0 fs ->
    Forall (fun run => fst run = 0 /\ stdout (snd run) = EmptyString
                       /\ stderr (snd run) = EmptyString)
           (run_calls calls fs)
    /\ content (final_files (run_calls calls fs) fs) (log_path w0)
       = content fs (log_path w0)
           ++ fold_right append EmptyString (map log_line calls).
Proof.
  induction 1 as [| w calls E F IH]; intros L fs R.
  - split; [constructor |]. unfold final_files. simpl.
    now rewrite append_empty.
  - cbn [forallb] in L. apply andb_prop in L as [Lw L].
    destruct (logged_when_ready w0 w fs E Lw R) as (fs2 & M & C & R2).
    cbn [run_calls]. rewrite M. cbn [files exit_status].
    destruct (IH L fs2 R2) as (A & B). split.
    + constructor; [simpl; auto | exact A].
    + cbn [map fold_right]. rewrite final_files_cons. cbn [snd files].
      now rewrite B, C, append_assoc.
Qed.

End Succession.

(** X15.  Calls in succession fill the log in order.  For loggable calls
    on one log directory, the first of which ends with status 0: every
    one of them ends with status 0 and prints nothing, and the log then
    holds what it held before followed by the lines of the calls, one per
    call, first call first. *)
Theorem log_accumulates {rt : Runtime} (w : world) (calls : list world)
        (fs : filesystem) :
  forallb loggable (w :: calls) = true ->
  forallb (fun w' => String.eqb (log_dir w') (log_dir w)) calls = true ->
  exit_status (fst (McpMonitor.main w (start fs))) = 0 ->
  let runs := run_calls (w :: calls) fs in
  Forall (fun run => fst run = 0 /\ stdout (snd run) = EmptyString
                     /\ stderr (snd run) = EmptyString) runs
  /\ content (final_files runs fs) (log_path w)
     = content fs (log_path w)
         ++ fold_right append EmptyString (map log_line (w :: calls)).
Proof.
  intros L F0 S runs. cbn [forallb] in L. apply andb_prop in L as [Lw L].
  assert (F : Forall (fun w' => log_dir w' = log_dir w) calls).
  { apply Forall_forall. intros w' I. rewrite forallb_forall in F0.
    now apply String.eqb_eq, F0. }
  pose proof Lw as Lw'. unfold loggable in Lw'.
  destruct (tool_call w) as [[tn ti] |] eqn:T; [| discriminate].
  destruct tn as [| | | t | |]; try discriminate.
  apply negb_true_iff in Lw'.
  destruct (makedirs (log_dir w) fs) as [made fs1] eqn:M.
  destruct (monitor_log_cases w t ti fs fs1 made T Lw' M) as (H1 & H2 & H3).
  destruct made as [e |]; [rewrite (H1 e eq_refl) in S; discriminate S |].
  destruct (append_file (log_path w)
              (dumps (log_entry w (JStr t) ti) ++ newline) fs1)
    as [[e |] fs2] eqn:A;
    [rewrite (H2 e fs2 eq_refl eq_refl) in S; discriminate S |].
  assert (R : log_ready w fs2)
    by (apply (log_ready_after_write w fs1 fs2
                 (dumps (log_entry w (JStr t) ti) ++ newline));
        [right; eauto | exact A]).
  destruct (run_calls_ready w calls F L fs2 R) as (B & C).
  subst runs. cbn [run_calls]. rewrite (H3 fs2 eq_refl eq_refl).
  cbn [files exit_status]. split.
  - constructor; [simpl; auto | exact B].
  - cbn [map fold_right].
    assert (C1 : content fs2 (log_path w)
                 = content fs (log_path w) ++ log_line w).
    { destruct (append_file_done _ _ _ _ A) as (G & _).
      unfold content at 1. rewrite G.
      rewrite (makedirs_content _ _ _ _ (log_path w) M).
      unfold log_line. now rewrite T. }
    rewrite final_files_cons. cbn [snd files].
    now rewrite C, C1, append_assoc.
Qed.

Lemma log_accumulates_witness :
  let w := Sample.at_noon (Sample.tool_request "mcp__files__read" (JDict [])) in
  let w' := Sample.at_noon (Sample.tool_request "mcp__openai__chat" (JInt 3)) in
  content (final_files (run_calls (rt := Concrete.runtime) [w; w'; w]
                          Sample.empty_fs) Sample.empty_fs) (log_path w)
  = log_line (rt := Concrete.runtime) w
      ++ log_line (rt := Concrete.runtime) w'
      ++ log_line (rt := Concrete.runtime) w.
Proof.
  intros w w'.
  destruct (log_accumulates (rt := Concrete.runtime) w [w'; w] Sample.empty_fs
              eq_refl eq_refl eq_refl) as [_ C].
  rewrite C. cbn [map fold_right]. now rewrite append_empty.
Defined.
